(** * cnode_check.py: the Cardano node release monitor

    A shallow embedding of [src/python/cnode_check.py] and the properties
    of its release checker, version parser, message formatter and version
    cache.

    Conventions of the model.
    - A Python [str] is a [string]; a character is an [ascii], read as a
      code point below 256.  The few characters of the source's literals
      that lie above that range (the bell, the warning sign, the bullet)
      are spelled by their UTF-8 bytes; no length, slice or case operation
      of the program is ever applied to them.
    - A Python [int] is a [Z]; a tuple of ints is a [list Z].
    - An exception is a value of [exn]; code that may raise returns a
      [result].  [KeyboardInterrupt] and the like (not [Exception]s) are
      outside the model.
    - [print] has no counterpart: the console is not modelled, and writing
      to it is taken not to fail.  No time passes in the model: of
      [datetime.fromtimestamp] and [time.sleep] at the end of a turn of the
      loop, only the exceptions are modelled. *)

From Stdlib Require Import ZArith Ascii String List Bool Lia DecimalString.
From stdpp Require Import base option list strings gmap.

Local Open Scope string_scope.
Local Open Scope Z_scope.

(** ** Exceptions and results *)

Inductive exn :=
| KeyError (key : string)
| IndexError
| ValueError
| AttributeError
| TypeError
| OverflowError
| OSError
| RequestException (msg : string).

Inductive result (A : Type) :=
| Ok (a : A)
| Raise (e : exn).
Arguments Ok {A} a.
Arguments Raise {A} e.

#[global] Instance result_ret : MRet result := fun A a => Ok a.
#[global] Instance result_bind : MBind result :=
  fun A B f m => match m with Ok a => f a | Raise e => Raise e end.

(** [try: body / except Exception: handler]: every exception of the
    model is an [Exception]. *)
Definition try_except {A} (body : result A) (handler : exn -> A) : A :=
  match body with
  | Ok a => a
  | Raise e => handler e
  end.

(** ** Values that may be null

    The feed documents [name] and [body] as a string or null: such a value
    is a [field].  A string is read as a field where one is expected. *)

Inductive field :=
| Null
| Str (s : string).

Coercion Str : string >-> field.

(** [Some s] is read as a field that is there where one is expected. *)
Arguments Some {A} & a.

(** ** The built-in operations of Python the program calls *)

Module Py.

Definition nl : string := String "010"%char "".

(** [c in chars], for a character [c]. *)
Fixpoint char_in (c : ascii) (chars : string) : bool :=
  match chars with
  | EmptyString => false
  | String d chars' => Ascii.eqb c d || char_in c chars'
  end.

(** [s.lstrip(chars)]: drops every leading character that occurs in
    [chars]. *)
Fixpoint lstrip (chars s : string) : string :=
  match s with
  | EmptyString => EmptyString
  | String c s' => if char_in c chars then lstrip chars s' else s
  end.

(** [s.split(sep)] for a one-character separator, the only way the
    program calls it.  The result is never empty. *)
Fixpoint split (sep : ascii) (s : string) : list string :=
  match s with
  | EmptyString => [EmptyString]
  | String c s' =>
      if Ascii.eqb c sep then EmptyString :: split sep s'
      else match split sep s' with
           | seg :: segs => String c seg :: segs
           | [] => [String c EmptyString]
           end
  end.

(** [l[0]]. *)
Definition index0 {A} (l : list A) : result A :=
  match l with
  | x :: _ => Ok x
  | [] => Raise IndexError
  end.

(** The white space [int] skips at both ends of its argument: tab to
    carriage return, the blank, and (of the code points below 256)
    next-line and the no-break space. *)
Definition is_space (c : ascii) : bool :=
  let n := N_of_ascii c in
  ((9 <=? n) && (n <=? 13) || (n =? 32) || (n =? 133) || (n =? 160))%N.

Definition is_digit (c : ascii) : bool :=
  let n := N_of_ascii c in ((48 <=? n) && (n <=? 57))%N.

Definition digit_value (c : ascii) : Z := Z.of_N (N_of_ascii c) - 48.

Fixpoint drop_spaces (l : list ascii) : list ascii :=
  match l with
  | c :: l' => if is_space c then drop_spaces l' else l
  | [] => []
  end.

(** The digits of a decimal literal after its first digit: single
    underscores may separate digits. *)
Fixpoint more_digits (acc : Z) (l : list ascii) : option Z :=
  match l with
  | [] => Some acc
  | c :: l' =>
      if is_digit c then more_digits (10 * acc + digit_value c) l'
      else if Ascii.eqb c "_" then
        match l' with
        | d :: l'' =>
            if is_digit d then more_digits (10 * acc + digit_value d) l''
            else None
        | [] => None
        end
      else None
  end.

Definition digits (l : list ascii) : option Z :=
  match l with
  | c :: l' => if is_digit c then more_digits (digit_value c) l' else None
  | [] => None
  end.

(** [int(s)] in base ten: surrounding white space, an optional sign, then
    digits.  (Interpreters that cap the number of digits of a literal
    raise [ValueError] beyond the cap; the cap is not modelled.) *)
Definition int (s : string) : result Z :=
  let body := rev (drop_spaces (rev (drop_spaces (list_ascii_of_string s)))) in
  let parsed :=
    match body with
    | c :: l =>
        if Ascii.eqb c "+" then digits l
        else if Ascii.eqb c "-" then Z.opp <$> digits l
        else digits body
    | [] => None
    end in
  match parsed with
  | Some n => Ok n
  | None => Raise ValueError
  end.

(** [tuple(map(f, l))] for an [f] that may raise. *)
Fixpoint map_result {A B} (f : A -> result B) (l : list A) : result (list B) :=
  match l with
  | [] => Ok []
  | x :: l' => y ← f x; ys ← map_result f l'; Ok (y :: ys)
  end.

(** [len(s)]. *)
Definition len (s : string) : nat := String.length s.

(** [s[:n]]. *)
Definition slice_to (n : nat) (s : string) : string := substring 0 n s.

(** [c.lower()] for a code point below 256: the letters A to Z and the
    accented capitals (all of 192..222 but the multiplication sign) move
    up by 32. *)
Definition lower_char (c : ascii) : ascii :=
  let n := N_of_ascii c in
  if ((65 <=? n) && (n <=? 90) || (192 <=? n) && (n <=? 222) && negb (n =? 215))%N
  then ascii_of_N (n + 32)
  else c.

(** [s.lower()]. *)
Fixpoint lower (s : string) : string :=
  match s with
  | EmptyString => EmptyString
  | String c s' => String (lower_char c) (lower s')
  end.

(** [s.startswith(p)]. *)
Fixpoint startswith (p s : string) : bool :=
  match p, s with
  | EmptyString, _ => true
  | String a p', String b s' => Ascii.eqb a b && startswith p' s'
  | String _ _, EmptyString => false
  end.

(** [needle in s], the substring test. *)
Fixpoint contains (needle s : string) : bool :=
  startswith needle s ||
  match s with
  | EmptyString => false
  | String _ s' => contains needle s'
  end.

(** [sep.join(l)]. *)
Definition join (sep : string) (l : list string) : string := String.concat sep l.

(** [l.append(x)], as the new value of [l]. *)
Definition append {A} (l : list A) (x : A) : list A := (l ++ [x])%list.

(** [str(n)] for an int. *)
Definition str (n : Z) : string := NilZero.string_of_int (Z.to_int n).

(** [f"{v}"] for a value that may be [None]. *)
Definition format (v : field) : string :=
  match v with
  | Null => "None"
  | Str s => s
  end.

(** [len(v)] for a value that may be [None]: [len(None)] raises
    [TypeError]; otherwise [v] is the string returned, whose length
    [len] then gives. *)
Definition sized (v : field) : result string :=
  match v with
  | Null => Raise TypeError
  | Str s => Ok s
  end.

(** [v.lower()] for a value that may be [None]. *)
Definition lower_method (v : field) : result string :=
  match v with
  | Null => Raise AttributeError
  | Str s => Ok (lower s)
  end.

(** [x + n] for a float [x] and an int [n] converts [n] to a float, which
    raises when [n] rounds beyond the largest float; the float itself is
    not modelled. *)
Definition float (n : Z) : result unit :=
  if 2 ^ 1024 - 2 ^ 970 <=? Z.abs n then Raise OverflowError else Ok tt.

(** [d[key]] for a dict, the presence of whose key is the [option]. *)
Definition subscript {A} (key : string) (v : option A) : result A :=
  match v with
  | Some x => Ok x
  | None => Raise (KeyError key)
  end.

End Py.

(** ** The data of the release feed

    [response.json()] is the JSON object of the latest release.  The
    program reads five of its keys.  A key may be missing ([None] below);
    when it is there, its value has the type the feed documents: a string
    for [tag_name], [html_url] and the name of an asset, a string or null
    for [name] and [body], a list for [assets]. *)

Record asset := Asset { asset_name : option string }.

Record release_info := Release {
  tag_name : option string;
  name : option field;
  html_url : option string;
  body : option field;
  assets : option (list asset)
}.

(** The truth value of a dict: whether it has a key. *)
Definition dict_truthy (r : release_info) : bool :=
  bool_decide (is_Some (tag_name r)) || bool_decide (is_Some (name r))
  || bool_decide (is_Some (html_url r)) || bool_decide (is_Some (body r))
  || bool_decide (is_Some (assets r)).

(** ** The outside world

    The file system maps a path to what reading the file there gives.  A
    file whose text [json.load] accepts holds a JSON value, and what
    [json.dump] writes is read back by [json.load] as the value written:
    the text itself is not modelled.  Of a JSON object only the members
    that are strings or null are kept (the cache is annotated
    [Optional[str]]). *)

Inductive json_value :=
| JObject (members : gmap string (option string))
| JOther.

Inductive file_content :=
| Unreadable
| Json (v : json_value).

(** The HTTP requests the program issues. *)
Inductive request :=
| GET (url : string) (headers : list (string * string))
| POST (url : string) (payload : list (string * string)).

Record world := World {
  files : gmap string file_content;
  sent : list request
}.

Definition set_files (fs : gmap string file_content) (w : world) : world :=
  {| files := fs; sent := sent w |}.

Definition issue (r : request) (w : world) : world :=
  {| files := files w; sent := (sent w ++ [r])%list |}.

(** What the world answers to one call of the program: these are inputs
    of the model. *)

(** [requests.get(...)], [raise_for_status()] and [response.json()]: a
    [RequestException] (no connection, an error status, or a body that is
    not JSON, which [requests] reports as one), or the decoded object.  A
    body that decodes to something else than an object is outside the
    model. *)
Inductive get_outcome :=
| GetRaises (e : string)
| GetJson (latest_release : release_info).

(** [requests.post(...)] and [raise_for_status()]. *)
Inductive post_outcome :=
| PostOk
| PostRaises (e : string).

(** [open(path, 'w')] and [json.dump]: the text is written; or [open]
    raises and the file stays as it was; or the write raises after [open]
    has truncated the file. *)
Inductive write_outcome :=
| WriteOk
| OpenRaises
| DumpRaises.

(** The end of a turn of the loop.  [datetime.fromtimestamp(next_check)]
    returns a date, or raises because the time of the next check lies
    outside the dates of the platform ([ValueError], [OverflowError] or
    [OSError], by how far); the system's sleep, once [time.sleep] has
    accepted the length, returns or fails.  The clock is not modelled, so
    which of these happens is an answer of the world. *)
Inductive pause_outcome :=
| Paused
| DateRaises (e : exn)
| SleepRaises (e : exn).

Record env := Answers {
  feed : get_outcome;
  write : write_outcome;
  post : post_outcome;
  clock : pause_outcome
}.

(** The answers of a turn at whose end the clock and the sleep do not
    fail. *)
Definition Env (feed : get_outcome) (write : write_outcome) (post : post_outcome)
    : env :=
  {| feed := feed; write := write; post := post; clock := Paused |}.

(** [os.path.exists(path)]. *)
Definition exists_ (path : string) (w : world) : bool :=
  bool_decide (is_Some (files w !! path)).

(** [with open(path, 'r') as f: json.load(f)]. *)
Definition json_load (path : string) (w : world) : result json_value :=
  match files w !! path with
  | Some (Json v) => Ok v
  | Some Unreadable => Raise ValueError
  | None => Raise OSError
  end.

(** [with open(path, 'w') as f: json.dump(v, f)]. *)
Definition json_dump (wr : write_outcome) (path : string) (v : json_value)
    (w : world) : result unit * world :=
  match wr with
  | WriteOk => (Ok tt, set_files (<[path := Json v]> (files w)) w)
  | OpenRaises => (Raise OSError, w)
  | DumpRaises => (Raise OSError, set_files (<[path := Unreadable]> (files w)) w)
  end.

(** [data.get(key)]. *)
Definition dict_get (data : json_value) (key : string) : result (option string) :=
  match data with
  | JObject members => Ok (mjoin (members !! key))
  | JOther => Raise AttributeError
  end.

(** ** [class TelegramNotifier] *)

Module TelegramNotifier.

Record t := Make {
  bot_token : string;
  chat_id : string;
  api_url : string
}.

Definition __init__ (bot_token chat_id : string) : t :=
  {| bot_token := bot_token;
     chat_id := chat_id;
     api_url := "https://api.telegram.org/bot" +:+ bot_token +:+ "/sendMessage" |}.

(** [requests.post(self.api_url, json=payload)] followed by
    [response.raise_for_status()]. *)
Definition requests_post (answer : post_outcome) (url : string)
    (payload : list (string * string)) (w : world) : result unit * world :=
  (match answer with
   | PostOk => Ok tt
   | PostRaises e => Raise (RequestException e)
   end,
   issue (POST url payload) w).

Definition send_message (answer : post_outcome) (self : t) (message : string)
    (w : world) : bool * world :=
  let payload :=
    [("chat_id", chat_id self); ("text", message); ("parse_mode", "HTML")] in
  let '(response, w) := requests_post answer (api_url self) payload w in
  (try_except (_ ← response; Ok true) (fun _ => false), w).

End TelegramNotifier.

(** ** [class CardanoNodeMonitor] *)

Module CardanoNodeMonitor.

Record t := Make {
  check_interval : Z;
  api_url : string;
  last_release : option string;
  cache_file : string;
  telegram : TelegramNotifier.t
}.

Definition set_last_release (v : option string) (self : t) : t :=
  {| check_interval := check_interval self;
     api_url := api_url self;
     last_release := v;
     cache_file := cache_file self;
     telegram := telegram self |}.

Definition _load_cache (w : world) (self : t) : t :=
  try_except
    (if exists_ (cache_file self) w then
       data ← json_load (cache_file self) w;
       v ← dict_get data "last_release";
       Ok (set_last_release v self)
     else Ok self)
    (fun _ => self).

Definition _save_cache (wr : write_outcome) (w : world) (self : t) : world :=
  let '(written, w) :=
    json_dump wr (cache_file self)
      (JObject {[ "last_release" := last_release self ]}) w in
  try_except (_ ← written; Ok w) (fun _ => w).

Definition __init__ (telegram_notifier : TelegramNotifier.t)
    (check_interval : Z) (w : world) : t :=
  let self :=
    {| check_interval := check_interval;
       api_url := "https://api.github.com/repos/IntersectMBO/cardano-node/releases/latest";
       last_release := None;
       cache_file := "cardano_node_last_release.json";
       telegram := telegram_notifier |} in
  _load_cache w self.

Definition _parse_version (tag_name : string) : list Z * bool :=
  try_except
    (let version := Py.lstrip "v" tag_name in
     let version_parts := Py.split "-" version in
     part0 ← Py.index0 version_parts;
     main_version ← Py.map_result Py.int (Py.split "." part0);
     let is_pre := (1 <? length version_parts)%nat in
     Ok (main_version, is_pre))
    (fun _ => ([0; 0; 0], false)).

(** [requests.get(self.api_url, headers=headers)],
    [response.raise_for_status()], [response.json()]. *)
Definition requests_get (answer : get_outcome) (url : string)
    (headers : list (string * string)) (w : world) : result release_info * world :=
  (match answer with
   | GetRaises e => Raise (RequestException e)
   | GetJson latest_release => Ok latest_release
   end,
   issue (GET url headers) w).

(** The body of the [try] of [check_new_release]. *)
Definition check_body (io : env) (w : world) (self : t)
    : result (option release_info) * t * world :=
  let headers := [("Accept", "application/vnd.github.v3+json")] in
  let '(response, w) := requests_get (feed io) (api_url self) headers w in
  match response with
  | Raise e => (Raise e, self, w)
  | Ok latest_release =>
      match Py.subscript "tag_name" (tag_name latest_release) with
      | Raise e => (Raise e, self, w)
      | Ok latest_tag =>
          match last_release self with
          | None =>
              let self := set_last_release (Some latest_tag) self in
              let w := _save_cache (write io) w self in
              (Ok None, self, w)
          | Some last =>
              if negb (String.eqb latest_tag last) then
                let self := set_last_release (Some latest_tag) self in
                let w := _save_cache (write io) w self in
                (Ok (Some latest_release), self, w)
              else (Ok None, self, w)
          end
      end
  end.

(** [except requests.exceptions.RequestException as e] catches that
    exception and no other. *)
Definition check_new_release (io : env) (w : world) (self : t)
    : result (option release_info) * t * world :=
  match check_body io w self with
  | (Raise (RequestException e), self, w) =>
      let '(_, w) :=
        TelegramNotifier.send_message (post io) (telegram self)
          ("⚠️ Error checking Cardano node releases: " +:+ e) w in
      (Ok None, self, w)
  | other => other
  end.

Definition important_keywords : list string :=
  ["breaking change"; "upgrade required"; "mandatory upgrade"].

(** The list [message] of [format_telegram_message], as it stands when
    the function joins it. *)
Definition message_lines (release_info : release_info) : result (list string) :=
  tag ← Py.subscript "tag_name" (tag_name release_info);
  let version_info := _parse_version tag in
  tag ← Py.subscript "tag_name" (tag_name release_info);
  name ← Py.subscript "name" (name release_info);
  let message :=
    ["🔔 <b>New Cardano Node Release!</b>";
     Py.nl +:+ "<b>Version:</b> " +:+ tag;
     "<b>Name:</b> " +:+ Py.format name] in
  let message :=
    if snd version_info
    then Py.append message (Py.nl +:+ "⚠️ <b>Note:</b> This is a pre-release version")
    else message in
  url ← Py.subscript "html_url" (html_url release_info);
  let message := Py.append message (Py.nl +:+ "<b>Release URL:</b> " +:+ url) in
  message ←
    match assets release_info with
    | Some ((_ :: _) as listed) =>
        let message := Py.append message (Py.nl +:+ "<b>Available Downloads:</b>") in
        names ← Py.map_result (fun a => Py.subscript "name" (asset_name a)) listed;
        Ok (fold_left (fun message n => Py.append message ("• " +:+ n)) names message)
    | _ => Ok message
    end;
  notes ← Py.subscript "body" (body release_info);
  notes ← Py.sized notes;
  let notes :=
    if (500 <? Py.len notes)%nat then Py.slice_to 497 notes +:+ "..." else notes in
  let message :=
    Py.append message (Py.nl +:+ "<b>Release Notes:</b>" +:+ Py.nl +:+ notes) in
  full ← Py.subscript "body" (body release_info);
  release_notes_lower ← Py.lower_method full;
  Ok (fold_left
        (fun message keyword =>
           if Py.contains keyword release_notes_lower
           then Py.append message
                  (Py.nl +:+ "⚠️ <b>IMPORTANT:</b> This release contains a "
                   +:+ keyword +:+ "!")
           else message)
        important_keywords message).

Definition format_telegram_message (release_info : release_info) : result string :=
  message ← message_lines release_info;
  Ok (Py.join Py.nl message).

(** [notify] prints three fields of the record before it formats and
    sends; a missing one raises there. *)
Definition notify (answer : post_outcome) (w : world) (self : t)
    (release_info : release_info) : result unit * world :=
  match (_ ← Py.subscript "tag_name" (tag_name release_info);
         _ ← Py.subscript "name" (name release_info);
         _ ← Py.subscript "html_url" (html_url release_info);
         format_telegram_message release_info) with
  | Raise e => (Raise e, w)
  | Ok telegram_message =>
      let '(_, w) :=
        TelegramNotifier.send_message answer (telegram self) telegram_message w in
      (Ok tt, w)
  end.

(** [datetime.now().timestamp() + self.check_interval] and
    [datetime.fromtimestamp(next_check)]: the sum converts the interval to
    a float, then the date is computed. *)
Definition next_check (answer : pause_outcome) (check_interval : Z) : result unit :=
  _ ← Py.float check_interval;
  match answer with
  | DateRaises e => Raise e
  | _ => Ok tt
  end.

(** [time.sleep(secs)] for an [int]: a negative length raises
    [ValueError], one beyond the 64-bit count of nanoseconds raises
    [OverflowError]; then the system sleeps. *)
Definition time_sleep (answer : pause_outcome) (secs : Z) : result unit :=
  if secs <? 0 then Raise ValueError
  else if 9223372036 <? secs then Raise OverflowError
  else match answer with
       | SleepRaises e => Raise e
       | _ => Ok tt
       end.

(** The end of a turn: lines 187 to 189. *)
Definition pause (answer : pause_outcome) (check_interval : Z) : result unit :=
  _ ← next_check answer check_interval;
  time_sleep answer check_interval.

(** One turn of the [while True] of [start_monitoring]. *)
Definition iteration (io : env) (w : world) (self : t) : result unit * t * world :=
  match check_new_release io w self with
  | (Raise e, self, w) => (Raise e, self, w)
  | (Ok new_release, self, w) =>
      let '(notified, w) :=
        match new_release with
        | Some found =>
            if dict_truthy found then notify (post io) w self found
            else (Ok tt, w)
        | None => (Ok tt, w)
        end in
      match notified with
      | Raise e => (Raise e, self, w)
      | Ok _ => (pause (clock io) (check_interval self), self, w)
      end
  end.

(** The loop, as far as the world's answers [ios] reach; an exception
    ends it. *)
Fixpoint monitoring_loop (ios : list env) (w : world) (self : t)
    : result unit * t * world :=
  match ios with
  | [] => (Ok tt, self, w)
  | io :: ios' =>
      match iteration io w self with
      | (Ok _, self, w) => monitoring_loop ios' w self
      | raised => raised
      end
  end.

Definition start_monitoring (startup : post_outcome) (ios : list env)
    (w : world) (self : t) : result unit * t * world :=
  let '(_, w) :=
    TelegramNotifier.send_message startup (telegram self)
      ("🟢 Cardano Node Release Monitor started" +:+ Py.nl +:+
       "Checking every " +:+ Py.str (check_interval self / 3600) +:+ " hour(s)") w in
  monitoring_loop ios w self.

End CardanoNodeMonitor.

(** ** The specification's side

    Definitions that follow the words of the specification, to be compared
    with the program above. *)

Module Spec.

Import CardanoNodeMonitor.

(** "Strip a leading literal [v] if present." *)
Definition strip_v (tag : string) : string :=
  match tag with
  | String c rest => if Ascii.eqb c "v" then rest else tag
  | EmptyString => tag
  end.

(** "Split remaining string on [-]; the first segment is dot-split into
    integers for the numeric component; presence of any segment after
    the first marks it as a pre-release.  On any parse failure return a
    zero-valued numeric component and [isPreRelease = false]." *)
Definition parse (tag : string) : list Z * bool :=
  match Py.split "-" (strip_v tag) with
  | first :: others =>
      match Py.map_result Py.int (Py.split "." first) with
      | Ok numbers => (numbers, bool_decide (others <> []))
      | Raise _ => ([0; 0; 0], false)
      end
  | [] => ([0; 0; 0], false)
  end.

(** A release record of the data model: identifier, display name,
    canonical URL, release notes, and the asset names in the feed's
    order. *)
Definition record (tag display url notes : string) (asset_names : list string)
    : release_info :=
  {| tag_name := Some tag;
     name := Some display;
     html_url := Some url;
     body := Some notes;
     assets := Some (map (fun n => {| asset_name := Some n |}) asset_names) |}.

(** What introduces the release notes in the message. *)
Definition notes_header : string :=
  Py.nl +:+ "<b>Release Notes:</b>" +:+ Py.nl.

(** The warning line that names a keyword. *)
Definition warning_line (keyword : string) : string :=
  Py.nl +:+ "⚠️ <b>IMPORTANT:</b> This release contains a " +:+ keyword +:+ "!".

Definition is_warning_line (line : string) : bool :=
  Py.startswith (Py.nl +:+ "⚠️ <b>IMPORTANT:</b>") line.

(** The keyword occurs in the text, letter case apart. *)
Definition occurs_ci (keyword text : string) : Prop :=
  exists before found after,
    text = before +:+ found +:+ after /\ Py.lower found = Py.lower keyword.

(** The layout of the message, part by part (section 4.5): header,
    version and display name, the pre-release warning, the URL, the
    bulleted asset names, the notes, the keyword warnings. *)
Definition front_lines (tag display url : string) (asset_names : list string)
    : list string :=
  (["🔔 <b>New Cardano Node Release!</b>";
    Py.nl +:+ "<b>Version:</b> " +:+ tag;
    "<b>Name:</b> " +:+ display]
   ++ (if snd (_parse_version tag)
       then [Py.nl +:+ "⚠️ <b>Note:</b> This is a pre-release version"]
       else [])
   ++ [Py.nl +:+ "<b>Release URL:</b> " +:+ url]
   ++ match asset_names with
      | [] => []
      | _ => (Py.nl +:+ "<b>Available Downloads:</b>")
             :: map (fun n => "• " +:+ n) asset_names
      end)%list.

Definition matched_keywords (notes : string) : list string :=
  List.filter (fun keyword => Py.contains keyword (Py.lower notes)) important_keywords.

(** The identifier in persisted state, as the Version Cache's [load]
    gives it: what [_load_cache] reads, at the monitor's storage path,
    into a monitor that has seen nothing. *)
Definition persisted (self : t) (w : world) : option string :=
  last_release (_load_cache w (set_last_release None self)).

(** The GET that polls the feed. *)
Definition poll (self : t) : request :=
  GET (api_url self) [("Accept", "application/vnd.github.v3+json")].

(** The POST that carries [text] to the messaging endpoint. *)
Definition notification (self : t) (text : string) : request :=
  POST (TelegramNotifier.api_url (telegram self))
    [("chat_id", TelegramNotifier.chat_id (telegram self));
     ("text", text); ("parse_mode", "HTML")].

(** The identifier a poll observes, if it observes one. *)
Definition observed (io : env) : option string :=
  match feed io with
  | GetJson latest_release => tag_name latest_release
  | GetRaises _ => None
  end.

(** What one call of [check_new_release] does, case by case: the request
    fails; the response has no [tag_name]; first run; a tag other than the
    one seen; the tag seen. *)
Inductive checked (io : env) (w : world) (self : t)
    : result (option release_info) * t * world -> Prop :=
| checked_feed_error e :
    feed io = GetRaises e ->
    checked io w self
      (Ok None, self,
       issue (notification self ("⚠️ Error checking Cardano node releases: " +:+ e))
         (issue (poll self) w))
| checked_no_tag r :
    feed io = GetJson r -> tag_name r = None ->
    checked io w self (Raise (KeyError "tag_name"), self, issue (poll self) w)
| checked_first_run r tag :
    feed io = GetJson r -> tag_name r = Some tag -> last_release self = None ->
    checked io w self
      (Ok None, set_last_release (Some tag) self,
       _save_cache (write io) (issue (poll self) w) (set_last_release (Some tag) self))
| checked_changed r tag last :
    feed io = GetJson r -> tag_name r = Some tag ->
    last_release self = Some last -> tag <> last ->
    checked io w self
      (Ok (Some r), set_last_release (Some tag) self,
       _save_cache (write io) (issue (poll self) w) (set_last_release (Some tag) self))
| checked_same r tag :
    feed io = GetJson r -> tag_name r = Some tag -> last_release self = Some tag ->
    checked io w self (Ok None, self, issue (poll self) w).

(** A sequence of calls of [check_new_release], one per answer of the
    world, each from the state the previous one left. *)
Fixpoint run_checks (ios : list env) (w : world) (self : t)
    : list (result (option release_info)) * t * world :=
  match ios with
  | [] => ([], self, w)
  | io :: ios' =>
      let '(out, self, w) := check_new_release io w self in
      let '(outs, self, w) := run_checks ios' w self in
      (out :: outs, self, w)
  end.

(** The identifiers of the releases a sequence of calls returned to be
    notified, in order. *)
Fixpoint notified (outs : list (result (option release_info))) : list string :=
  match outs with
  | [] => []
  | Ok (Some found) :: outs' => option_list (tag_name found) ++ notified outs'
  | _ :: outs' => notified outs'
  end.

(** The identifier the sequence starts from: the one already seen, or on
    a first run the first one observed. *)
Definition seed (seen : option string) (ios : list env) : list string :=
  match seen with
  | Some last => [last]
  | None => option_list (head (omap observed ios))
  end.

(** No two neighbours of the list are equal. *)
Fixpoint no_repeat (l : list string) : Prop :=
  match l with
  | a :: (b :: _) as l' => a <> b /\ no_repeat l'
  | _ => True
  end.

(** The record has the four keys the formatter subscripts, its [body] is
    a string, and every asset it lists has a name. *)
Definition complete (r : release_info) : Prop :=
  is_Some (tag_name r) /\ is_Some (name r) /\ is_Some (html_url r) /\
  (exists notes : string, body r = Some (Str notes)) /\
  Forall (fun a => is_Some (asset_name a)) (default [] (assets r)).

(** The exceptions of the formatter: a key that is missing, or notes that
    are null. *)
Definition format_error (e : exn) : Prop :=
  (exists key, e = KeyError key /\ In key ["tag_name"; "name"; "html_url"; "body"]) \/
  e = TypeError.

(** Three more lines of the message: the pre-release note, the heading of
    the downloads, and the bullet of an asset. *)
Definition pre_release_note : string :=
  Py.nl +:+ "⚠️ <b>Note:</b> This is a pre-release version".

Definition downloads_header : string :=
  Py.nl +:+ "<b>Available Downloads:</b>".

Definition bullet (asset_name : string) : string := "• " +:+ asset_name.

(** The world answers a poll with a failure of the request or with a
    complete record. *)
Definition well_behaved (io : env) : Prop :=
  match feed io with
  | GetRaises _ => True
  | GetJson latest_release => complete latest_release
  end.

(** A request of the program: the poll of the feed, or a POST of some text
    to the messaging endpoint of the monitor. *)
Definition expected_request (self : t) (r : request) : Prop :=
  r = poll self \/ exists text, r = notification self text.

End Spec.

(** Sample values for the concrete instances below. *)

Module Sample.

Definition notifier : TelegramNotifier.t :=
  TelegramNotifier.__init__ "123:abc" "42".

Definition release (tag : string) (notes : string) : release_info :=
  {| tag_name := Some tag;
     name := Some ("Cardano Node " +:+ tag);
     html_url := Some ("https://github.com/IntersectMBO/cardano-node/releases/tag/" +:+ tag);
     body := Some notes;
     assets := Some [ {| asset_name := Some "cardano-node-linux.tar.gz" |} ] |}.

(** A world whose cache file holds [seen]. *)
Definition world_with (seen : option string) : world :=
  {| files := {[ "cardano_node_last_release.json" :=
                   Json (JObject {[ "last_release" := seen ]}) ]};
     sent := [] |}.

Definition empty_world : world := {| files := ∅; sent := [] |}.

(** ["x" * n]. *)
Definition filler (n : nat) : string := string_of_list_ascii (repeat "x"%char n).

(** A monitor started in such a world. *)
Definition monitor (seen : option string) : CardanoNodeMonitor.t :=
  CardanoNodeMonitor.__init__ notifier 3600 (world_with seen).

End Sample.

(** * Properties *)

Import CardanoNodeMonitor.

#[local] Arguments Ascii.eqb : simpl never.
#[local] Arguments String.eqb : simpl never.
#[local] Arguments pause : simpl never.

(** ** The version parser *)

Section parse_version.

Lemma split_not_nil sep s : Py.split sep s <> [].
Proof.
  destruct s as [|c s]; simpl; [discriminate|].
  destruct (Ascii.eqb c sep); [discriminate|].
  destruct (Py.split sep s); discriminate.
Qed.

(** A string splits in more than one segment exactly when the separator
    occurs in it. *)
Lemma split_several sep s :
  (1 < length (Py.split sep s))%nat <-> exists a b, s = a +:+ String sep b.
Proof.
  split.
  - intros H.
    induction s as [|c s IH]; simpl in H; [lia|].
    destruct (Ascii.eqb_spec c sep) as [->|Hne].
    + now exists EmptyString, s.
    + destruct (Py.split sep s) as [|seg segs] eqn:E; simpl in H; [lia|].
      destruct IH as (a & b & ->); [simpl; lia|].
      now exists (String c a), b.
  - intros (a & b & ->).
    induction a as [|c a IH]; simpl.
    + rewrite Ascii.eqb_refl. simpl.
      pose proof (split_not_nil sep b).
      destruct (Py.split sep b); simpl; [congruence|lia].
    + destruct (Ascii.eqb c sep); simpl.
      * pose proof (split_not_nil sep (a +:+ String sep b)).
        destruct (Py.split sep (a +:+ String sep b)); simpl; [congruence|lia].
      * destruct (Py.split sep (a +:+ String sep b)); simpl in *; lia.
Qed.

Lemma lstrip_v_head s c rest :
  Py.lstrip "v" s = String c rest -> c <> "v"%char.
Proof.
  induction s as [|d s IH]; simpl; [discriminate|].
  destruct (Ascii.eqb_spec d "v") as [->|Hne]; simpl.
  - exact IH.
  - intros [= <- _]. exact Hne.
Qed.

Lemma strip_v_lstrip s : Spec.strip_v (Py.lstrip "v" s) = Py.lstrip "v" s.
Proof.
  destruct (Py.lstrip "v" s) as [|c rest] eqn:E; [reflexivity|].
  apply lstrip_v_head in E. simpl.
  destruct (Ascii.eqb_spec c "v"); congruence.
Qed.

Lemma lstrip_one_v s :
  Py.startswith "vv" s = false -> Py.lstrip "v" s = Spec.strip_v s.
Proof.
  destruct s as [|c s]; [reflexivity|]. simpl.
  rewrite (Ascii.eqb_sym "v" c), orb_false_r.
  destruct (Ascii.eqb c "v"); simpl; [|reflexivity].
  destruct s as [|d s]; [reflexivity|]. simpl.
  rewrite (Ascii.eqb_sym "v" d), orb_false_r.
  destruct (Ascii.eqb d "v"); simpl; [discriminate|reflexivity].
Qed.

Lemma parse_version_lstrip tag :
  _parse_version tag = Spec.parse (Py.lstrip "v" tag).
Proof.
  unfold _parse_version, Spec.parse. rewrite strip_v_lstrip.
  pose proof (split_not_nil "-" (Py.lstrip "v" tag)) as Hne.
  destruct (Py.split "-" (Py.lstrip "v" tag)) as [|first others]; [congruence|].
  simpl. destruct (Py.map_result Py.int (Py.split "." first)); simpl; [|reflexivity].
  f_equal. destruct others; reflexivity.
Qed.

(** The flag is raised only for tags with a dash after the leading
    [v]s. *)
Lemma parse_version_pre_dash tag :
  snd (_parse_version tag) = true ->
  exists a b, Py.lstrip "v" tag = a +:+ String "-" b.
Proof.
  unfold _parse_version. intros H. apply split_several.
  destruct (Py.split "-" (Py.lstrip "v" tag)) as [|first others]; simpl in *;
    [discriminate|].
  destruct (Py.map_result Py.int (Py.split "." first)); simpl in H; [|discriminate].
  destruct others; simpl in *; [discriminate|lia].
Qed.

End parse_version.

(** C5, as stated, fails: [lstrip('v')] removes every leading [v], not one.
    On the tag [vv1.2.3] the program answers [((1,2,3), False)], where
    stripping a single [v] leaves [v1.2.3], whose first segment is not
    numeric, hence the fallback [((0,0,0), False)]. *)
Lemma parse_version_double_v :
  _parse_version "vv1.2.3" = ([1; 2; 3], false) /\
  Spec.parse "vv1.2.3" = ([0; 0; 0], false) /\
  _parse_version "vv1.2.3" <> Spec.parse "vv1.2.3".
Proof. repeat split; vm_compute; congruence. Qed.

(** C5, amended: for every tag, [_parse_version] strips all the leading
    [v]s of the tag and then does what the specification says (split on
    [-], dot-split the first segment into integers, flag a pre-release
    exactly when a further segment exists, fall back to [((0,0,0), False)]
    when a segment is not numeric or the string is empty).  On tags that
    do not begin with two [v]s it is the specification's [parse]; the flag
    is raised only for tags with a dash after the leading [v]s; and the
    three examples of the specification hold. *)
Theorem parse_version_spec :
  (forall tag, _parse_version tag = Spec.parse (Py.lstrip "v" tag)) /\
  (forall tag, Py.startswith "vv" tag = false -> _parse_version tag = Spec.parse tag) /\
  (forall tag, snd (_parse_version tag) = true ->
     exists a b, Py.lstrip "v" tag = a +:+ String "-" b) /\
  _parse_version "v1.2.3" = ([1; 2; 3], false) /\
  _parse_version "v1.2.3-rc1" = ([1; 2; 3], true) /\
  _parse_version "not-a-version" = ([0; 0; 0], false) /\
  _parse_version "" = ([0; 0; 0], false).
Proof.
  split; [exact parse_version_lstrip|].
  split; [|split; [exact parse_version_pre_dash|repeat split; reflexivity]].
  intros tag H. rewrite parse_version_lstrip, (lstrip_one_v _ H).
  unfold Spec.parse at 1.
  assert (Spec.strip_v (Spec.strip_v tag) = Spec.strip_v tag) as ->; [|reflexivity].
  rewrite <- (lstrip_one_v _ H). apply strip_v_lstrip.
Qed.

Lemma parse_version_spec_witness :
  _parse_version "v8.9.0-pre" = Spec.parse "v8.9.0-pre" /\
  exists a b, Py.lstrip "v" "v8.9.0-pre" = a +:+ String "-" b.
Proof.
  destruct parse_version_spec as (_ & Hone & Hdash & _).
  split; [apply Hone; reflexivity|apply Hdash; reflexivity].
Defined.

(** ** The release checker *)

Section release_checker.

Implicit Types (io : env) (w : world) (self : t).

Lemma load_cache_stored w self members :
  files w !! cache_file self = Some (Json (JObject members)) ->
  last_release (_load_cache w self) = mjoin (members !! "last_release").
Proof.
  intros H. unfold _load_cache, exists_, json_load. rewrite H.
  rewrite bool_decide_true by eauto. reflexivity.
Qed.

Lemma save_cache_files w self :
  files (_save_cache WriteOk w self)
  = <[cache_file self := Json (JObject {[ "last_release" := last_release self ]})]> (files w).
Proof. reflexivity. Qed.

Lemma save_cache_sent wr w self : sent (_save_cache wr w self) = sent w.
Proof. destruct wr; reflexivity. Qed.

(** After a write that succeeds, the persisted identifier is the one in
    memory. *)
Lemma persisted_save_cache w self :
  Spec.persisted self (_save_cache WriteOk w self) = last_release self.
Proof.
  unfold Spec.persisted.
  erewrite load_cache_stored.
  2:{ rewrite save_cache_files. apply lookup_insert_eq. }
  now rewrite lookup_singleton_eq.
Qed.

(** The persisted identifier depends on the storage path and the files
    only. *)
Lemma persisted_ext self self' w w' :
  cache_file self' = cache_file self -> files w' = files w ->
  Spec.persisted self' w' = Spec.persisted self w.
Proof.
  intros Hp Hf. unfold Spec.persisted, _load_cache, exists_, json_load.
  simpl cache_file. rewrite Hp, Hf.
  destruct (files w !! cache_file self) as [[|[members|]]|]; reflexivity.
Qed.

Lemma send_message_spec answer (notifier : TelegramNotifier.t) message w :
  TelegramNotifier.send_message answer notifier message w
  = (match answer with PostOk => true | PostRaises _ => false end,
     issue (POST (TelegramNotifier.api_url notifier)
              [("chat_id", TelegramNotifier.chat_id notifier);
               ("text", message); ("parse_mode", "HTML")]) w).
Proof. destruct answer; reflexivity. Qed.

(** The program follows the case-by-case description. *)
Lemma check_new_release_checked io w self :
  Spec.checked io w self (check_new_release io w self).
Proof.
  destruct io as [[e|r] wr p c].
  - destruct p; now apply Spec.checked_feed_error.
  - unfold check_new_release, check_body. simpl.
    destruct (tag_name r) as [tag|] eqn:Htag; simpl.
    2:{ now apply (Spec.checked_no_tag (Answers (GetJson r) wr p c) w self r). }
    destruct (last_release self) as [last|] eqn:Hlast.
    2:{ now apply (Spec.checked_first_run (Answers (GetJson r) wr p c) w self r tag). }
    destruct (String.eqb_spec tag last) as [->|Hne]; simpl.
    + now apply (Spec.checked_same (Answers (GetJson r) wr p c) w self r last).
    + now apply (Spec.checked_changed (Answers (GetJson r) wr p c) w self r tag last).
Qed.

End release_checker.

(** Case analysis on a call of [check_new_release]; the equations of each
    case are named [Hfeed], [Htag], [Hlast], [Hne]. *)
Ltac check_cases io w self :=
  let e := fresh "e" in
  let r := fresh "r" in
  let tag := fresh "tag" in
  let last := fresh "last" in
  let Hfeed := fresh "Hfeed" in
  let Htag := fresh "Htag" in
  let Hlast := fresh "Hlast" in
  let Hne := fresh "Hne" in
  destruct (check_new_release_checked io w self)
    as [e Hfeed|r Hfeed Htag|r tag Hfeed Htag Hlast
       |r tag last Hfeed Htag Hlast Hne|r tag Hfeed Htag Hlast].

(** C1, as stated, fails where the write of the cache file fails:
    [_save_cache] catches the exception and goes on.  The monitor has seen
    [10.1.3], the feed answers [10.1.4], [open] raises: the record is
    returned and the identifier in memory is [10.1.4], but the persisted
    one still is [10.1.3]. *)
Lemma check_changed_write_fails :
  let io := Env (GetJson (Sample.release "10.1.4" "")) OpenRaises PostOk in
  let '(out, self', w') :=
    check_new_release io (Sample.world_with (Some "10.1.3")) (Sample.monitor (Some "10.1.3")) in
  last_release (Sample.monitor (Some "10.1.3")) = Some "10.1.3" /\
  out = Ok (Some (Sample.release "10.1.4" "")) /\
  last_release self' = Some "10.1.4" /\
  Spec.persisted self' w' = Some "10.1.3" /\
  Spec.persisted self' w' <> Some "10.1.4".
Proof. vm_compute. repeat split; congruence. Qed.

(** C1, amended: in a call that is not the first run (an identifier [last]
    has been seen) and whose poll succeeds with a response carrying
    [tag_name]: if the tag differs from [last], [check_new_release] returns
    the full release record and the identifier in memory is the new tag,
    and the persisted identifier is the new tag too provided the write of
    the cache file succeeds; if the tag equals [last], it returns nothing
    and leaves the monitor and the files unchanged. *)
Theorem check_new_release_seen io w self last latest_release latest_tag :
  last_release self = Some last ->
  feed io = GetJson latest_release ->
  tag_name latest_release = Some latest_tag ->
  let '(out, self', w') := check_new_release io w self in
  (latest_tag <> last ->
     out = Ok (Some latest_release) /\
     last_release self' = Some latest_tag /\
     (write io = WriteOk -> Spec.persisted self' w' = Some latest_tag)) /\
  (latest_tag = last ->
     out = Ok None /\ self' = self /\ files w' = files w).
Proof.
  intros Hseen Hjson Hpresent.
  check_cases io w self; try congruence.
  - (* a tag other than the one seen *)
    assert (r = latest_release) as -> by congruence.
    assert (tag = latest_tag) as -> by congruence.
    split; [|congruence]. intros _. repeat split.
    intros ->. apply persisted_save_cache.
  - (* the tag seen *)
    split; [congruence|]. intros _. repeat split.
Qed.

Lemma check_new_release_seen_witness :
  let w := Sample.world_with (Some "10.1.3") in
  let self := Sample.monitor (Some "10.1.3") in
  (let '(out, self', w') :=
     check_new_release (Env (GetJson (Sample.release "10.1.4" "")) WriteOk PostOk) w self in
   out = Ok (Some (Sample.release "10.1.4" "")) /\
   last_release self' = Some "10.1.4" /\
   Spec.persisted self' w' = Some "10.1.4") /\
  (let '(out, self', w') :=
     check_new_release (Env (GetJson (Sample.release "10.1.3" "")) WriteOk PostOk) w self in
   out = Ok None /\ self' = self /\ files w' = files w).
Proof.
  intros w self. split.
  - pose proof (check_new_release_seen
                  (Env (GetJson (Sample.release "10.1.4" "")) WriteOk PostOk) w self
                  "10.1.3" (Sample.release "10.1.4" "") "10.1.4"
                  eq_refl eq_refl eq_refl) as H.
    destruct (check_new_release _ w self) as [[out self'] w'].
    destruct H as [H _]. destruct H as (Hout & Hmem & Hfile); [discriminate|].
    split; [exact Hout|]. split; [exact Hmem|]. apply Hfile. reflexivity.
  - pose proof (check_new_release_seen
                  (Env (GetJson (Sample.release "10.1.3" "")) WriteOk PostOk) w self
                  "10.1.3" (Sample.release "10.1.3" "") "10.1.3"
                  eq_refl eq_refl eq_refl) as H.
    destruct (check_new_release _ w self) as [[out self'] w'].
    destruct H as [_ H]. apply H. reflexivity.
Defined.

(** C2, as stated, fails for the same reason: on a first run whose write
    fails after [open] has truncated the file, the observed tag is recorded
    in memory but not persisted. *)
Lemma check_first_run_write_fails :
  let io := Env (GetJson (Sample.release "10.1.4" "")) DumpRaises PostOk in
  let '(out, self', w') :=
    check_new_release io Sample.empty_world (Sample.monitor None) in
  last_release (Sample.monitor None) = None /\
  out = Ok None /\
  last_release self' = Some "10.1.4" /\
  Spec.persisted self' w' = None.
Proof. vm_compute. repeat split; congruence. Qed.

(** C2, amended: on a first run (no identifier seen) whose poll succeeds
    with a response carrying [tag_name], [check_new_release] returns
    nothing whatever else the response holds, records the observed tag in
    memory, and persists it provided the write of the cache file
    succeeds. *)
Theorem check_new_release_first_run io w self latest_release latest_tag :
  last_release self = None ->
  feed io = GetJson latest_release ->
  tag_name latest_release = Some latest_tag ->
  let '(out, self', w') := check_new_release io w self in
  out = Ok None /\
  last_release self' = Some latest_tag /\
  (write io = WriteOk -> Spec.persisted self' w' = Some latest_tag).
Proof.
  intros Hseen Hjson Hpresent.
  check_cases io w self; try congruence.
  assert (tag = latest_tag) as -> by congruence.
  repeat split. intros ->. apply persisted_save_cache.
Qed.

Lemma check_new_release_first_run_witness :
  let '(out, self', w') :=
    check_new_release
      (Env (GetJson (Sample.release "10.1.4" "notes")) WriteOk (PostRaises "down"))
      Sample.empty_world (Sample.monitor None) in
  out = Ok None /\
  last_release self' = Some "10.1.4" /\
  Spec.persisted self' w' = Some "10.1.4".
Proof.
  pose proof (check_new_release_first_run
                (Env (GetJson (Sample.release "10.1.4" "notes")) WriteOk (PostRaises "down"))
                Sample.empty_world (Sample.monitor None)
                (Sample.release "10.1.4" "notes") "10.1.4"
                eq_refl eq_refl eq_refl) as H.
  destruct (check_new_release _ Sample.empty_world (Sample.monitor None))
    as [[out self'] w'].
  destruct H as (Hout & Hmem & Hfile).
  split; [exact Hout|]. split; [exact Hmem|]. apply Hfile. reflexivity.
Defined.

(** C3: when the request to the feed fails, [check_new_release] returns
    nothing, the monitor (hence the identifier in memory) and the files
    (hence the persisted identifier) are as before the call, and the
    requests issued are the poll and then one POST of the warning to the
    messaging endpoint; this whatever that POST and the storage would
    answer. *)
Theorem check_new_release_feed_error io w self e :
  feed io = GetRaises e ->
  let '(out, self', w') := check_new_release io w self in
  out = Ok None /\
  self' = self /\
  files w' = files w /\
  Spec.persisted self' w' = Spec.persisted self w /\
  sent w' = (sent w ++
             [Spec.poll self;
              Spec.notification self ("⚠️ Error checking Cardano node releases: " +:+ e)])%list.
Proof.
  intros Hfails.
  check_cases io w self; try congruence.
  assert (e0 = e) as -> by congruence.
  repeat split. simpl. now rewrite <- app_assoc.
Qed.

Lemma check_new_release_feed_error_witness :
  let io := Env (GetRaises "503 Server Error") WriteOk (PostRaises "timed out") in
  let w := Sample.world_with (Some "10.1.3") in
  let self := Sample.monitor (Some "10.1.3") in
  let '(out, self', w') := check_new_release io w self in
  out = Ok None /\
  self' = self /\
  files w' = files w /\
  Spec.persisted self' w' = Spec.persisted self w /\
  sent w' = (sent w ++
             [Spec.poll self;
              Spec.notification self
                ("⚠️ Error checking Cardano node releases: " +:+ "503 Server Error")])%list.
Proof.
  exact (check_new_release_feed_error
           (Env (GetRaises "503 Server Error") WriteOk (PostRaises "timed out"))
           (Sample.world_with (Some "10.1.3")) (Sample.monitor (Some "10.1.3"))
           "503 Server Error" eq_refl).
Defined.

(** C9, as stated, fails: [check_new_release] catches
    [RequestException] only.  A response without [tag_name] raises
    [KeyError] at [latest_release['tag_name']], and the exception leaves
    [check_new_release] and ends the loop. *)
Lemma check_missing_tag_raises :
  let untagged :=
    {| tag_name := None; name := Some "Cardano Node"; html_url := Some "https://x";
       body := Some ""; assets := None |} in
  let io := Env (GetJson untagged) WriteOk PostOk in
  let w := Sample.world_with (Some "10.1.3") in
  let self := Sample.monitor (Some "10.1.3") in
  (check_new_release io w self).1.1 = Raise (KeyError "tag_name") /\
  (monitoring_loop [io; io] w self).1.1 = Raise (KeyError "tag_name").
Proof. split; reflexivity. Qed.

(** C9, amended: [send_message] never raises: it returns [True] when the
    POST succeeds and [False] when it fails.  [check_new_release] never
    raises when the request to the feed fails (it returns nothing) nor when
    the response carries [tag_name], whatever the Notifier and the write of
    the cache file do. *)
Theorem failures_contained :
  (forall answer notifier message w,
     (TelegramNotifier.send_message answer notifier message w).1
     = match answer with PostOk => true | PostRaises _ => false end) /\
  (forall io w self e,
     feed io = GetRaises e -> (check_new_release io w self).1.1 = Ok None) /\
  (forall io w self r,
     feed io = GetJson r -> is_Some (tag_name r) ->
     exists out, (check_new_release io w self).1.1 = Ok out).
Proof.
  split; [intros; now rewrite send_message_spec|].
  split.
  - intros io w self e Hfails. check_cases io w self; simpl; congruence.
  - intros io w self r Hjson [tag Hpresent].
    check_cases io w self; try congruence; simpl; eauto.
Qed.

Lemma failures_contained_witness :
  (check_new_release (Env (GetRaises "no route to host") DumpRaises (PostRaises "no route to host"))
     Sample.empty_world (Sample.monitor None)).1.1 = Ok None /\
  (exists out,
     (check_new_release (Env (GetJson (Sample.release "10.1.4" "")) DumpRaises (PostRaises "x"))
        Sample.empty_world (Sample.monitor (Some "10.1.3"))).1.1 = Ok out).
Proof.
  destruct failures_contained as (_ & H1 & H2).
  split; [eapply H1; reflexivity|].
  eapply H2; [reflexivity|eexists; reflexivity].
Defined.

Section notification.

Implicit Types (io : env) (w : world) (self : t).

(** [notify] touches no file, whether it raises or not. *)
Lemma notify_files answer w self found :
  files (notify answer w self found).2 = files w.
Proof.
  unfold notify.
  destruct (_ ← Py.subscript "tag_name" (tag_name found); _) as [m|e]; [|reflexivity].
  now rewrite send_message_spec.
Qed.

(** A record that can be formatted is sent. *)
Lemma notify_sent answer w self found message :
  format_telegram_message found = Ok message ->
  notify answer w self found = (Ok tt, issue (Spec.notification self message) w).
Proof.
  intros H. unfold notify.
  assert ((_ ← Py.subscript "tag_name" (tag_name found);
           _ ← Py.subscript "name" (name found);
           _ ← Py.subscript "html_url" (html_url found);
           format_telegram_message found) = Ok message) as ->.
  { unfold format_telegram_message, message_lines in *.
    destruct (tag_name found); [|discriminate].
    destruct (name found); [|discriminate].
    destruct (html_url found); [|discriminate].
    exact H. }
  now rewrite send_message_spec.
Qed.

End notification.

(** C10, as stated, fails in its persisted part where the write of the
    cache file fails: the monitor has seen [10.1.3], the feed answers
    [10.1.4] and the write raises after [open] truncated the file; the
    record is returned although no identifier is persisted any more. *)
Lemma check_returns_before_persisting :
  let io := Env (GetJson (Sample.release "10.1.4" "")) DumpRaises (PostRaises "timed out") in
  let '(out, self', w') :=
    check_new_release io (Sample.world_with (Some "10.1.3")) (Sample.monitor (Some "10.1.3")) in
  out = Ok (Some (Sample.release "10.1.4" "")) /\
  last_release self' = Some "10.1.4" /\
  Spec.persisted self' w' = None /\
  Spec.persisted self' w' <> tag_name (Sample.release "10.1.4" "").
Proof. vm_compute. repeat split; congruence. Qed.

(** C10, amended: whenever [check_new_release] returns a release record,
    the identifier in memory already is that record's [tag_name], and so is
    the persisted identifier provided the write of the cache file
    succeeded; at that point the poll is the only request issued.  The turn
    of the loop then notifies: a record that can be formatted is posted
    after the poll, and the turn leaves the monitor and the files as
    [check_new_release] left them whether the notification succeeds, fails
    or raises; consequently the next check that observes the same tag
    returns nothing. *)
Theorem state_updated_before_notification io w self found :
  (check_new_release io w self).1.1 = Ok (Some found) ->
  let '(_, self1, w1) := check_new_release io w self in
  is_Some (tag_name found) /\
  last_release self1 = tag_name found /\
  (write io = WriteOk -> Spec.persisted self1 w1 = tag_name found) /\
  sent w1 = (sent w ++ [Spec.poll self])%list /\
  let '(_, self2, w2) := iteration io w self in
  self2 = self1 /\
  files w2 = files w1 /\
  (forall message, format_telegram_message found = Ok message ->
     sent w2 = (sent w1 ++ [Spec.notification self1 message])%list) /\
  forall io', Spec.observed io' = tag_name found ->
              (check_new_release io' w2 self2).1.1 = Ok None.
Proof.
  unfold iteration.
  check_cases io w self; simpl; try discriminate.
  intros [= <-].
  split; [eauto|]. split; [now rewrite Htag|].
  split; [intros ->; rewrite Htag; apply persisted_save_cache|].
  split; [now rewrite save_cache_sent|].
  assert (dict_truthy r = true) as ->.
  { unfold dict_truthy. rewrite Htag. reflexivity. }
  set (self1 := set_last_release (Some tag) self).
  set (w1 := _save_cache (write io) (issue (Spec.poll self) w) self1).
  pose proof (notify_files (post io) w1 self1 r) as Hfiles.
  pose proof (notify_sent (post io) w1 self1 r) as Hsent.
  destruct (notify (post io) w1 self1 r) as [res w2]. simpl in Hfiles.
  assert (forall (pair : result unit * t * world), pair.1.2 = self1 -> pair.2 = w2 ->
            let '(_, self2, w2') := pair in
            self2 = self1 /\ files w2' = files w1 /\
            (forall message, format_telegram_message r = Ok message ->
               sent w2' = (sent w1 ++ [Spec.notification self1 message])%list) /\
            forall io', Spec.observed io' = tag_name r ->
                        (check_new_release io' w2' self2).1.1 = Ok None) as Hturn;
    [|destruct res as [done|e];
      [exact (Hturn (pause (clock io) (check_interval self1), self1, w2) eq_refl eq_refl)
      |exact (Hturn (Raise e, self1, w2) eq_refl eq_refl)]].
  intros [[res' self2] w2']; simpl; intros -> ->.
  split; [reflexivity|]. split; [exact Hfiles|]. split.
  - intros message Hm. specialize (Hsent message Hm). now injection Hsent as _ ->.
  - intros io' Hobs. unfold Spec.observed in Hobs.
    check_cases io' w2 self1; simpl; try reflexivity;
      rewrite Hfeed0 in Hobs; simpl in *; congruence.
Qed.

Lemma state_updated_before_notification_witness :
  let io := Env (GetJson (Sample.release "10.1.4" "")) WriteOk (PostRaises "timed out") in
  let w := Sample.world_with (Some "10.1.3") in
  let self := Sample.monitor (Some "10.1.3") in
  let '(_, self1, w1) := check_new_release io w self in
  last_release self1 = Some "10.1.4" /\
  Spec.persisted self1 w1 = Some "10.1.4" /\
  let '(_, self2, w2) := iteration io w self in
  (check_new_release (Env (GetJson (Sample.release "10.1.4" "")) WriteOk PostOk)
     w2 self2).1.1 = Ok None.
Proof.
  intros io w self.
  pose proof (state_updated_before_notification io w self
                (Sample.release "10.1.4" "") eq_refl) as H.
  destruct (check_new_release io w self) as [[out self1] w1].
  destruct H as (_ & Hmem & Hfile & _ & H).
  split; [exact Hmem|]. split; [apply Hfile; reflexivity|].
  destruct (iteration io w self) as [[res self2] w2].
  destruct H as (_ & _ & _ & Hnext). apply Hnext. reflexivity.
Defined.

(** ** The version cache *)

Section version_cache.

Implicit Types (w : world) (self : t).

Lemma load_cache_cache_file w self : cache_file (_load_cache w self) = cache_file self.
Proof.
  unfold _load_cache.
  destruct (exists_ (cache_file self) w); [|reflexivity].
  destruct (json_load (cache_file self) w) as [[members|]|e]; reflexivity.
Qed.

(** Every monitor is constructed on the same storage path. *)
Lemma init_cache_file notifier interval w :
  cache_file (__init__ notifier interval w) = "cardano_node_last_release.json".
Proof. unfold __init__. now rewrite load_cache_cache_file. Qed.

End version_cache.

(** C8, as stated, fails where the write fails: with [10.1.3] in the cache
    file, saving [10.1.4] when [open] raises leaves the file as it was, and
    both a load by the same monitor and a load by a newly constructed one
    return [10.1.3]. *)
Lemma save_fails_load_returns_old :
  let self := set_last_release (Some "10.1.4") (Sample.monitor (Some "10.1.3")) in
  let w' := _save_cache OpenRaises (Sample.world_with (Some "10.1.3")) self in
  last_release (_load_cache w' self) = Some "10.1.3" /\
  last_release (__init__ Sample.notifier 3600 w') = Some "10.1.3" /\
  last_release (_load_cache w' self) <> Some "10.1.4".
Proof. vm_compute. repeat split; congruence. Qed.

(** C8, amended: for every identifier string [x] (empty or not), saving
    [x] with a write that succeeds and then loading returns [x]: by the
    monitor that saved, and by any monitor constructed afterwards, which
    reads the same storage path.  When the write fails at [open], a load
    returns what the file held before; when it fails after [open], a newly
    constructed monitor loads nothing. *)
Theorem cache_round_trip x notifier interval w0 w :
  let self := set_last_release (Some x) (__init__ notifier interval w0) in
  (let w' := _save_cache WriteOk w self in
   last_release (_load_cache w' self) = Some x /\
   forall notifier' interval', last_release (__init__ notifier' interval' w') = Some x) /\
  (let w' := _save_cache OpenRaises w self in
   forall notifier' interval',
     last_release (__init__ notifier' interval' w')
     = last_release (__init__ notifier' interval' w)) /\
  (let w' := _save_cache DumpRaises w self in
   forall notifier' interval', last_release (__init__ notifier' interval' w') = None).
Proof.
  intros self.
  assert (cache_file self = "cardano_node_last_release.json") as Hpath
    by apply init_cache_file.
  split; [|split].
  - intros w'. split.
    + erewrite load_cache_stored.
      2:{ unfold w'. rewrite save_cache_files. apply lookup_insert_eq. }
      now rewrite lookup_singleton_eq.
    + intros notifier' interval'. unfold __init__.
      erewrite load_cache_stored.
      2:{ unfold w'. rewrite save_cache_files, Hpath. apply lookup_insert_eq. }
      now rewrite lookup_singleton_eq.
  - reflexivity.
  - intros w' notifier' interval'. unfold __init__, _load_cache, exists_, json_load.
    unfold w', _save_cache, json_dump. rewrite Hpath. simpl.
    rewrite lookup_insert_eq.
    rewrite bool_decide_true by eauto. reflexivity.
Qed.

(** ** Sequences of checks *)

Section sequences.

Implicit Types (io : env) (w : world) (self : t) (ids : list string).

Lemma run_checks_cons io ios w self :
  Spec.run_checks (io :: ios) w self
  = let '(out, self1, w1) := check_new_release io w self in
    let '(outs, self2, w2) := Spec.run_checks ios w1 self1 in
    (out :: outs, self2, w2).
Proof. reflexivity. Qed.

Lemma seed_failed seen io ios :
  Spec.observed io = None -> Spec.seed seen (io :: ios) = Spec.seed seen ios.
Proof. intros H. unfold Spec.seed. simpl. now rewrite H. Qed.

Lemma seed_first_run io ios tag :
  Spec.observed io = Some tag -> Spec.seed None (io :: ios) = [tag].
Proof. intros H. unfold Spec.seed. simpl. now rewrite H. Qed.

(** The two halves of the invariant together, by induction on the sequence
    of calls. *)
Lemma run_checks_ids ios : forall w self,
  let '(outs, self', w') := Spec.run_checks ios w self in
  let ids := (Spec.seed (last_release self) ios ++ Spec.notified outs)%list in
  last_release self' = last ids /\ Spec.no_repeat ids /\ length outs = length ios.
Proof.
  induction ios as [|io ios IH]; intros w self.
  - simpl. destruct (last_release self); simpl; auto.
  - rewrite run_checks_cons.
    check_cases io w self;
      match goal with
      | |- context [Spec.run_checks ios ?w1 ?self1] =>
          specialize (IH w1 self1);
          destruct (Spec.run_checks ios w1 self1) as [[outs self2] w2]
      end;
      destruct IH as (Hlast' & Hids & Hlen); cbn zeta.
    + (* the request failed *)
      rewrite seed_failed by (unfold Spec.observed; now rewrite Hfeed).
      simpl. auto.
    + (* no tag *)
      rewrite seed_failed by (unfold Spec.observed; now rewrite Hfeed).
      simpl. auto.
    + (* first run: the tag seeds the state *)
      rewrite Hlast, (seed_first_run _ _ tag)
        by (unfold Spec.observed; now rewrite Hfeed).
      simpl in *. auto.
    + (* a new tag: the record is returned *)
      rewrite Hlast. simpl in *. rewrite Htag. simpl. auto.
    + (* the tag already seen *)
      rewrite Hlast in *. simpl in *. auto.
Qed.

(** The persisted half of the invariant: while the writes of the cache
    file succeed, what is persisted is what the monitor holds. *)
Lemma check_new_release_persisted io w self :
  write io = WriteOk ->
  Spec.persisted self w = last_release self ->
  let '(_, self', w') := check_new_release io w self in
  Spec.persisted self' w' = last_release self'.
Proof.
  intros Hwrite Hinv. check_cases io w self.
  - rewrite <- Hinv. now apply persisted_ext.
  - rewrite <- Hinv. now apply persisted_ext.
  - rewrite Hwrite. apply persisted_save_cache.
  - rewrite Hwrite. apply persisted_save_cache.
  - rewrite <- Hinv. now apply persisted_ext.
Qed.

Lemma run_checks_persisted ios : forall w self,
  Forall (fun io => write io = WriteOk) ios ->
  Spec.persisted self w = last_release self ->
  let '(_, self', w') := Spec.run_checks ios w self in
  Spec.persisted self' w' = last_release self'.
Proof.
  induction ios as [|io ios IH]; intros w self Hwrites Hinv.
  - exact Hinv.
  - inversion Hwrites as [|? ? Hwrite Hrest]; subst.
    rewrite run_checks_cons.
    pose proof (check_new_release_persisted io w self Hwrite Hinv) as Hcheck.
    destruct (check_new_release io w self) as [[out self1] w1].
    specialize (IH w1 self1 Hrest Hcheck).
    now destruct (Spec.run_checks ios w1 self1) as [[outs self2] w2].
Qed.

End sequences.

(** C4, as stated, fails for the persisted state where a write of the
    cache file fails.  The monitor has seen [10.1.3] and the file holds it;
    the feed answers [10.1.4] and [open] raises; the next poll fails.  The
    release [10.1.4] was returned for notification, yet after both calls
    the persisted identifier still is [10.1.3], and a monitor constructed
    then starts from [10.1.3]. *)
Lemma cached_state_write_fails :
  let ios := [Env (GetJson (Sample.release "10.1.4" "")) OpenRaises PostOk;
              Env (GetRaises "down") WriteOk PostOk] in
  let w := Sample.world_with (Some "10.1.3") in
  let self := Sample.monitor (Some "10.1.3") in
  let '(outs, self', w') := Spec.run_checks ios w self in
  let ids := (Spec.seed (last_release self) ios ++ Spec.notified outs)%list in
  Spec.persisted self w = last_release self /\
  Spec.notified outs = ["10.1.4"] /\
  last ids = Some "10.1.4" /\
  Spec.persisted self' w' = Some "10.1.3" /\
  Spec.persisted self' w' <> last ids /\
  last_release (__init__ Sample.notifier 3600 w') = Some "10.1.3".
Proof. vm_compute. repeat split; congruence. Qed.

(** C4, amended: over every sequence of calls of [check_new_release],
    from any state and whatever the world answers, the identifier the
    monitor holds at the end is the last of the list made of the seed (the
    identifier seen at the start or, on a first run, the first one
    observed) followed by the identifiers of the releases returned for
    notification: it is the most recently notified one, or the seed when
    none was notified.  No two neighbours of that list are equal: no
    returned record carries the identifier that the preceding state update
    returned or seeded.  The persisted identifier is that same last
    element provided every write of the cache file succeeded and the
    sequence started from a monitor that held what was persisted. *)
Theorem cached_state_tracks_updates ios w self :
  let '(outs, self', w') := Spec.run_checks ios w self in
  let ids := (Spec.seed (last_release self) ios ++ Spec.notified outs)%list in
  last_release self' = last ids /\
  Spec.no_repeat ids /\
  (Forall (fun io => write io = WriteOk) ios ->
   Spec.persisted self w = last_release self ->
   Spec.persisted self' w' = last ids).
Proof.
  pose proof (run_checks_ids ios w self) as H.
  pose proof (run_checks_persisted ios w self) as Hfile.
  destruct (Spec.run_checks ios w self) as [[outs self'] w'].
  destruct H as (Hlast & Hids & _).
  split; [exact Hlast|]. split; [exact Hids|].
  intros Hwrites Hinv. rewrite <- Hlast. now apply Hfile.
Qed.

Lemma cached_state_tracks_updates_witness :
  let tagged tag := Env (GetJson (Sample.release tag "")) WriteOk PostOk in
  let ios := [tagged "a"; tagged "b"; Env (GetRaises "down") WriteOk PostOk;
              tagged "b"; tagged "c"] in
  let w := Sample.empty_world in
  let self := Sample.monitor None in
  Forall (fun io => write io = WriteOk) ios /\
  Spec.persisted self w = last_release self /\
  let '(outs, self', w') := Spec.run_checks ios w self in
  Spec.persisted self' w'
  = last (Spec.seed (last_release self) ios ++ Spec.notified outs)%list.
Proof.
  intros tagged ios w self.
  assert (Forall (fun io => write io = WriteOk) ios) as Hwrites
    by (repeat constructor).
  split; [exact Hwrites|]. split; [reflexivity|].
  pose proof (cached_state_tracks_updates ios w self) as H.
  destruct (Spec.run_checks ios w self) as [[outs self'] w'].
  destruct H as (_ & _ & H). apply H; [exact Hwrites|reflexivity].
Defined.

Example cached_state_run :
  let tagged t := Env (GetJson (Sample.release t "")) WriteOk PostOk in
  let ios := [Env (GetRaises "down") WriteOk PostOk; tagged "a"; tagged "a"; tagged "b";
              tagged "b"; Env (GetRaises "down") WriteOk PostOk; tagged "a"] in
  let '(outs, self', _) := Spec.run_checks ios Sample.empty_world (Sample.monitor None) in
  Spec.seed None ios = ["a"] /\ Spec.notified outs = ["b"; "a"] /\
  last_release self' = Some "a".
Proof. vm_compute. auto. Qed.

(** ** Strings *)

Section strings.

Implicit Types (s p a b : string).

#[local] Arguments String.append : simpl nomatch.

Lemma append_assoc a b c : (a +:+ b) +:+ c = a +:+ b +:+ c.
Proof. induction a as [|x a IH]; simpl; [reflexivity|now rewrite IH]. Qed.

Lemma append_empty_r a : a +:+ "" = a.
Proof. induction a as [|x a IH]; simpl; [reflexivity|now rewrite IH]. Qed.

Lemma length_append a b :
  String.length (a +:+ b) = (String.length a + String.length b)%nat.
Proof. induction a as [|x a IH]; simpl; [reflexivity|now rewrite IH]. Qed.

Lemma startswith_spec p s : Py.startswith p s = true <-> exists rest, s = p +:+ rest.
Proof.
  revert s. induction p as [|x p IH]; intros s; simpl.
  - split; eauto.
  - destruct s as [|y s].
    + split; [discriminate|intros [rest H]; discriminate].
    + rewrite andb_true_iff, Ascii.eqb_eq, IH. split.
      * intros [-> [rest ->]]. eauto.
      * intros [rest [= -> ->]]. eauto.
Qed.

Lemma startswith_append p s : Py.startswith p (p +:+ s) = true.
Proof. apply startswith_spec. eauto. Qed.

(** [needle in s] holds exactly when [s] decomposes around [needle]. *)
Lemma contains_spec needle s :
  Py.contains needle s = true <-> exists a b, s = a +:+ needle +:+ b.
Proof.
  induction s as [|x s IH].
  - simpl. rewrite orb_false_r, startswith_spec. split.
    + intros [rest ->]. now exists "", rest.
    + intros (a & b & H). destruct a; simpl in H; [eauto|discriminate].
  - simpl. rewrite orb_true_iff, startswith_spec, IH. split.
    + intros [[rest ->]|(a & b & ->)].
      * now exists "", rest.
      * now exists (String x a), b.
    + intros (a & b & H). destruct a as [|y a]; simpl in H.
      * left. eauto.
      * right. injection H as -> ->. eauto.
Qed.

Lemma lower_append a b : Py.lower (a +:+ b) = Py.lower a +:+ Py.lower b.
Proof. induction a as [|x a IH]; simpl; [reflexivity|now rewrite IH]. Qed.

Lemma lower_append_inv s a b :
  Py.lower s = a +:+ b ->
  exists s1 s2, s = s1 +:+ s2 /\ Py.lower s1 = a /\ Py.lower s2 = b.
Proof.
  revert s. induction a as [|x a IH]; intros s H; simpl in H.
  - now exists "", s.
  - destruct s as [|y s]; simpl in H; [discriminate|].
    injection H as Hx H. destruct (IH _ H) as (s1 & s2 & -> & <- & <-).
    exists (String y s1), s2. simpl. now rewrite Hx.
Qed.

(** The program's test, a substring search in the lowered notes, is the
    occurrence of the keyword letter case apart. *)
Lemma contains_lower_occurs keyword notes :
  Py.lower keyword = keyword ->
  Py.contains keyword (Py.lower notes) = true <-> Spec.occurs_ci keyword notes.
Proof.
  intros Hk. rewrite contains_spec. unfold Spec.occurs_ci. rewrite Hk. split.
  - intros (a & b & H).
    destruct (lower_append_inv _ _ _ H) as (before & rest & -> & _ & H').
    destruct (lower_append_inv _ _ _ H') as (found & after & -> & Hf & _).
    now exists before, found, after.
  - intros (before & found & after & -> & Hf).
    exists (Py.lower before), (Py.lower after).
    now rewrite !lower_append, Hf.
Qed.

Lemma slice_to_prefix n s : exists rest, s = Py.slice_to n s +:+ rest.
Proof.
  unfold Py.slice_to. revert s. induction n as [|n IH]; intros s.
  - exists s. now destruct s.
  - destruct s as [|x s]; simpl; [now exists ""|].
    destruct (IH s) as [rest H]. exists rest. now rewrite <- H.
Qed.

Lemma length_slice_to n s :
  (n <= String.length s)%nat -> String.length (Py.slice_to n s) = n.
Proof.
  unfold Py.slice_to. revert s. induction n as [|n IH]; intros s H.
  - now destruct s.
  - destruct s as [|x s]; simpl in *; [lia|]. rewrite IH; lia.
Qed.

End strings.

(** ** The message formatter *)

Section formatter.

Implicit Types (tag display url notes : string) (asset_names : list string).

Lemma map_result_names asset_names :
  Py.map_result (fun a => Py.subscript "name" (asset_name a))
    (map (fun n => {| asset_name := Some n |}) asset_names)
  = Ok asset_names.
Proof.
  induction asset_names as [|n l IH]; simpl; [reflexivity|].
  now rewrite IH.
Qed.

Lemma fold_left_append {A} (f : A -> string) (l : list A) (message : list string) :
  fold_left (fun message x => Py.append message (f x)) l message
  = (message ++ map f l)%list.
Proof.
  revert message. induction l as [|x l IH]; intros message; simpl.
  - now rewrite app_nil_r.
  - rewrite IH. unfold Py.append. now rewrite <- app_assoc.
Qed.

(** The program builds the message the specification lays out. *)
Lemma message_lines_record tag display url notes asset_names :
  message_lines (Spec.record tag display url notes asset_names)
  = Ok (Spec.front_lines tag display url asset_names
        ++ [Spec.notes_header +:+
            (if (500 <? String.length notes)%nat
             then Py.slice_to 497 notes +:+ "..." else notes)]
        ++ map Spec.warning_line (Spec.matched_keywords notes))%list.
Proof.
  unfold message_lines, Spec.front_lines, Spec.matched_keywords, Spec.record.
  cbn [tag_name name html_url body assets Py.subscript Py.sized Py.lower_method
       Py.format mbind result_bind].
  set (shown := if (500 <? Py.len notes)%nat then _ else notes).
  set (lowered := Py.lower notes).
  assert (forall front : list string,
    fold_left
      (fun message keyword =>
         if Py.contains keyword lowered
         then Py.append message
                (Py.nl +:+ "⚠️ <b>IMPORTANT:</b> This release contains a "
                 +:+ keyword +:+ "!")
         else message)
      important_keywords front
    = (front ++ map Spec.warning_line
                  (List.filter (fun keyword => Py.contains keyword lowered)
                     important_keywords))%list) as Hkw.
  { intros front. unfold important_keywords. cbn [fold_left List.filter].
    destruct (Py.contains "breaking change" lowered),
             (Py.contains "upgrade required" lowered),
             (Py.contains "mandatory upgrade" lowered);
      unfold Py.append; cbn [map]; rewrite <- ?app_assoc; cbn [app];
      rewrite ?app_nil_r; reflexivity. }
  destruct asset_names as [|n l].
  - cbn [map mbind result_bind]. rewrite Hkw. unfold Py.append.
    destruct (snd (_parse_version tag)); cbn [app]; rewrite <- ?app_assoc;
      reflexivity.
  - cbn [map].
    change ({| asset_name := Some n |} :: map _ l) with
      (map (fun n0 => {| asset_name := Some n0 |}) (n :: l)).
    rewrite map_result_names.
    cbn [mbind result_bind]. rewrite fold_left_append, Hkw. unfold Py.append.
    destruct (snd (_parse_version tag)); cbn [app]; rewrite <- ?app_assoc;
      reflexivity.
Qed.

Lemma filter_none {A} (f : A -> bool) (l : list A) :
  (forall x, In x l -> f x = false) -> List.filter f l = [].
Proof.
  induction l as [|x l IH]; intros H; simpl; [reflexivity|].
  rewrite (H x) by now left. apply IH. intros y Hy. apply H. now right.
Qed.

Lemma filter_all {A} (f : A -> bool) (l : list A) :
  (forall x, In x l -> f x = true) -> List.filter f l = l.
Proof.
  induction l as [|x l IH]; intros H; simpl; [reflexivity|].
  rewrite (H x) by now left. f_equal. apply IH. intros y Hy. apply H. now right.
Qed.

(** No line before the notes begins like the notes or like a keyword
    warning. *)
Lemma front_lines_plain tag display url asset_names line :
  In line (Spec.front_lines tag display url asset_names) ->
  Py.startswith Spec.notes_header line = false /\
  Spec.is_warning_line line = false.
Proof.
  unfold Spec.front_lines. rewrite !in_app_iff.
  intros [H|[H|[H|H]]].
  - destruct H as [<-|[<-|[<-|[]]]]; split; reflexivity.
  - destruct (snd (_parse_version tag)); [|destruct H].
    destruct H as [<-|[]]; split; reflexivity.
  - destruct H as [<-|[]]; split; reflexivity.
  - destruct asset_names as [|n l]; [destruct H|].
    destruct H as [<-|H]; [split; reflexivity|].
    apply in_map_iff in H as (x & <- & _). split; reflexivity.
Qed.

Lemma warning_line_is_warning keyword :
  Spec.is_warning_line (Spec.warning_line keyword) = true /\
  Py.startswith Spec.notes_header (Spec.warning_line keyword) = false.
Proof. split; reflexivity. Qed.

Lemma notes_line_not_warning shown :
  Spec.is_warning_line (Spec.notes_header +:+ shown) = false.
Proof. reflexivity. Qed.

Lemma keywords_lowercase keyword :
  In keyword important_keywords -> Py.lower keyword = keyword.
Proof. intros [<-|[<-|[<-|[]]]]; reflexivity. Qed.

Lemma warning_line_inj k1 k2 :
  In k1 important_keywords -> In k2 important_keywords ->
  Spec.warning_line k1 = Spec.warning_line k2 -> k1 = k2.
Proof.
  intros [<-|[<-|[<-|[]]]] [<-|[<-|[<-|[]]]] H;
    try reflexivity; vm_compute in H; discriminate.
Qed.

Lemma matched_keywords_in keyword notes :
  In keyword (Spec.matched_keywords notes) <->
  In keyword important_keywords /\ Spec.occurs_ci keyword notes.
Proof.
  unfold Spec.matched_keywords. rewrite filter_In. split.
  - intros [Hin H]. split; [exact Hin|].
    now apply contains_lower_occurs; [apply keywords_lowercase|].
  - intros [Hin H]. split; [exact Hin|].
    now apply contains_lower_occurs; [apply keywords_lowercase|].
Qed.

Lemma matched_keywords_sublist notes :
  Spec.matched_keywords notes `sublist_of` important_keywords.
Proof.
  unfold Spec.matched_keywords, important_keywords. cbn [List.filter].
  destruct (Py.contains "breaking change" _), (Py.contains "upgrade required" _),
           (Py.contains "mandatory upgrade" _); repeat constructor.
Qed.

Lemma append_inv_head p a b : p +:+ a = p +:+ b -> a = b.
Proof.
  induction p as [|x p IH]; intros H; [exact H|].
  injection H as H. now apply IH.
Qed.

Lemma join_app_cons sep (l : list string) x r :
  l <> [] ->
  Py.join sep (l ++ x :: r) = Py.join sep l +:+ sep +:+ Py.join sep (x :: r).
Proof.
  unfold Py.join. intros Hl. induction l as [|y l IH]; [congruence|].
  destruct l as [|z l].
  - reflexivity.
  - change (String.concat sep ((y :: z :: l) ++ x :: r))
      with (y +:+ sep +:+ String.concat sep ((z :: l) ++ x :: r)).
    rewrite IH by discriminate.
    change (String.concat sep (y :: z :: l))
      with (y +:+ sep +:+ String.concat sep (z :: l)).
    now rewrite !append_assoc.
Qed.

(** In the joined message the notes line ends the text or is followed by
    a keyword warning. *)
Lemma join_notes_line front line (matched : list string) :
  front <> [] ->
  exists before after,
    Py.join Py.nl (front ++ [line] ++ map Spec.warning_line matched)
    = before +:+ line +:+ after /\
    (after = "" \/
     Py.startswith (Py.nl +:+ Py.nl +:+ "⚠️ <b>IMPORTANT:</b>") after = true).
Proof.
  intros Hf. exists (Py.join Py.nl front +:+ Py.nl).
  change ([line] ++ map Spec.warning_line matched)%list
    with (line :: map Spec.warning_line matched).
  rewrite (join_app_cons _ _ _ _ Hf).
  destruct matched as [|k ks].
  - exists "". split; [|now left].
    cbn [map]. unfold Py.join at 2. cbn [String.concat].
    now rewrite append_empty_r, append_assoc.
  - exists (Py.nl +:+ Py.join Py.nl (map Spec.warning_line (k :: ks))).
    split; [now rewrite append_assoc|]. right.
    cbn [map]. unfold Py.join. destruct (map Spec.warning_line ks); reflexivity.
Qed.

Lemma concat_empty_cons (x : string) (l : list string) :
  String.concat "" (x :: l) = x +:+ String.concat "" l.
Proof. destruct l; simpl; [now rewrite append_empty_r|reflexivity]. Qed.

(** Joining lines after a first part that is not empty: each further line
    comes after one more separator. *)
Lemma join_app_lines sep (r : list string) : forall l : list string,
  l <> [] ->
  Py.join sep (l ++ r)
  = Py.join sep l +:+ String.concat "" (map (fun x => sep +:+ x) r).
Proof.
  induction r as [|x r IH]; intros l Hl.
  - rewrite app_nil_r. simpl. now rewrite append_empty_r.
  - change (l ++ x :: r)%list with (l ++ [x] ++ r)%list.
    rewrite app_assoc, IH by (destruct l; discriminate).
    rewrite (join_app_cons sep l x [] Hl).
    cbn [map]. rewrite concat_empty_cons.
    unfold Py.join at 2. cbn [String.concat].
    now rewrite !append_assoc.
Qed.

(** A line among those lines is found in the text, after a separator. *)
Lemma concat_lines_In sep x (r : list string) :
  In x r ->
  exists before after,
    String.concat "" (map (fun x => sep +:+ x) r) = before +:+ (sep +:+ x) +:+ after.
Proof.
  intros Hin. apply in_split in Hin as (r1 & r2 & ->).
  exists (String.concat "" (map (fun x => sep +:+ x) r1)),
         (String.concat "" (map (fun x => sep +:+ x) r2)).
  induction r1 as [|y r1 IH].
  - cbn [map app]. now rewrite concat_empty_cons.
  - change ((y :: r1) ++ x :: r2)%list with (y :: (r1 ++ x :: r2))%list.
    cbn [map]. rewrite !concat_empty_cons, IH. now rewrite !append_assoc.
Qed.

(** Among the warning lines of the matched keywords there is none for a
    keyword of the list that is not matched. *)
Lemma warnings_without notes keyword :
  In keyword important_keywords ->
  ~ In keyword (Spec.matched_keywords notes) ->
  Py.contains (Spec.warning_line keyword)
    (String.concat ""
       (map (fun keyword => Py.nl +:+ Spec.warning_line keyword)
          (Spec.matched_keywords notes)))
  = false.
Proof.
  unfold Spec.matched_keywords, important_keywords. cbn [List.filter].
  intros [<-|[<-|[<-|[]]]];
    destruct (Py.contains "breaking change" _), (Py.contains "upgrade required" _),
             (Py.contains "mandatory upgrade" _);
    intros Hout; try (exfalso; apply Hout; simpl; tauto);
    vm_compute; reflexivity.
Qed.

End formatter.

(** C6: for every release record, the message has exactly one line that
    begins like the release notes, and that line shows the notes.  When
    the notes are longer than 500 characters it shows their first 497
    characters followed by the three dots, 500 characters in all, and the
    message has no line with the full notes; in the joined text what is
    shown ends the message or is followed by a keyword warning.  Notes of
    at most 500 characters are shown verbatim. *)
Theorem format_truncates_notes tag display url notes asset_names :
  exists message shown,
    message_lines (Spec.record tag display url notes asset_names) = Ok message /\
    format_telegram_message (Spec.record tag display url notes asset_names)
    = Ok (Py.join Py.nl message) /\
    List.filter (Py.startswith Spec.notes_header) message
    = [Spec.notes_header +:+ shown] /\
    (exists before after,
       Py.join Py.nl message = before +:+ (Spec.notes_header +:+ shown) +:+ after /\
       (after = "" \/
        Py.startswith (Py.nl +:+ Py.nl +:+ "⚠️ <b>IMPORTANT:</b>") after = true)) /\
    ((500 < String.length notes)%nat ->
       shown = Py.slice_to 497 notes +:+ "..." /\
       String.length (Py.slice_to 497 notes) = 497%nat /\
       (exists rest, notes = Py.slice_to 497 notes +:+ rest) /\
       String.length shown = 500%nat /\
       ~ In (Spec.notes_header +:+ notes) message) /\
    ((String.length notes <= 500)%nat -> shown = notes).
Proof.
  pose proof (message_lines_record tag display url notes asset_names) as Hlines.
  set (shown := if (500 <? String.length notes)%nat
                then Py.slice_to 497 notes +:+ "..." else notes) in Hlines.
  set (message := (_ ++ _ ++ _)%list) in Hlines.
  exists message, shown.
  assert (List.filter (Py.startswith Spec.notes_header) message
          = [Spec.notes_header +:+ shown]) as Hfilter.
  { unfold message. rewrite !List.filter_app.
    rewrite (filter_none _ (Spec.front_lines _ _ _ _)).
    2:{ intros line H. now apply front_lines_plain in H. }
    rewrite (filter_none _ (map _ _)).
    2:{ intros line H. apply in_map_iff in H as (k & <- & _).
        apply warning_line_is_warning. }
    cbn [List.filter]. now rewrite startswith_append. }
  split; [exact Hlines|].
  split; [unfold format_telegram_message; now rewrite Hlines|].
  split; [exact Hfilter|].
  split.
  { apply join_notes_line. unfold Spec.front_lines. discriminate. }
  split.
  - intros Hlong.
    assert (shown = Py.slice_to 497 notes +:+ "...") as Hshown.
    { unfold shown. apply Nat.ltb_lt in Hlong. now rewrite Hlong. }
    assert (String.length (Py.slice_to 497 notes) = 497%nat) as Hlen
      by (apply length_slice_to; lia).
    assert (String.length shown = 500%nat) as Hlen'
      by (rewrite Hshown, length_append, Hlen; reflexivity).
    repeat split; try assumption.
    + apply slice_to_prefix.
    + intros Hin.
      assert (In (Spec.notes_header +:+ notes)
                (List.filter (Py.startswith Spec.notes_header) message)) as Hin'.
      { apply filter_In. split; [exact Hin|apply startswith_append]. }
      rewrite Hfilter in Hin'. destruct Hin' as [Heq|[]].
      apply append_inv_head in Heq. rewrite Heq in Hlen'. lia.
  - intros Hshort. unfold shown.
    assert ((500 <? String.length notes)%nat = false) as -> by (apply Nat.ltb_ge; lia).
    reflexivity.
Qed.

Lemma format_truncates_notes_witness :
  (exists message shown text,
     message_lines (Sample.release "10.1.4" (Sample.filler 600)) = Ok message /\
     List.filter (Py.startswith Spec.notes_header) message
     = [Spec.notes_header +:+ shown] /\
     shown = Sample.filler 497 +:+ "..." /\
     String.length shown = 500%nat /\
     format_telegram_message (Sample.release "10.1.4" (Sample.filler 600)) = Ok text /\
     Py.contains (Sample.filler 497 +:+ "...") text = true /\
     Py.contains (Sample.filler 498) text = false) /\
  (exists message,
     message_lines (Sample.release "10.1.4" (Sample.filler 500)) = Ok message /\
     List.filter (Py.startswith Spec.notes_header) message
     = [Spec.notes_header +:+ Sample.filler 500]).
Proof.
  split.
  - destruct (format_truncates_notes "10.1.4" "Cardano Node 10.1.4"
                "https://github.com/IntersectMBO/cardano-node/releases/tag/10.1.4"
                (Sample.filler 600) ["cardano-node-linux.tar.gz"])
      as (message & shown & Hlines & Htext & Hfilter & _ & Hlong & _).
    exists message, shown, (Py.join Py.nl message).
    destruct Hlong as (Hshown & _ & _ & Hlen & _); [vm_compute; lia|].
    split; [exact Hlines|]. split; [exact Hfilter|]. split; [exact Hshown|].
    split; [exact Hlen|]. split; [exact Htext|].
    vm_compute in Hlines. injection Hlines as <-. split; vm_compute; reflexivity.
  - destruct (format_truncates_notes "10.1.4" "Cardano Node 10.1.4"
                "https://github.com/IntersectMBO/cardano-node/releases/tag/10.1.4"
                (Sample.filler 500) ["cardano-node-linux.tar.gz"])
      as (message & shown & Hlines & _ & Hfilter & _ & _ & Hshort).
    exists message. split; [exact Hlines|].
    rewrite Hfilter, Hshort; [reflexivity|vm_compute; lia].
Defined.

(** C7: for every release record there is a list of matched keywords, a
    sublist of the fixed keyword list in its order, holding exactly the
    keywords that occur, letter case apart, in the full notes; the message
    lines that are keyword warnings are the warning lines naming the
    matched keywords, one each and in that order; and for each keyword of
    the list the message has the warning line naming it exactly when the
    keyword occurs, letter case apart, in the full notes.  In the text
    returned, the lines that are no keyword warnings come first, joined by
    newlines, and the text ends with the warning lines of the matched
    keywords, each after a newline, one each and in keyword-list order; so
    the warning line naming a keyword of the list that occurs in the full
    notes is found in the text, also when the occurrence lies past the
    characters of the notes that are shown. *)
Theorem format_keyword_warnings tag display url notes asset_names :
  exists message matched text,
    message_lines (Spec.record tag display url notes asset_names) = Ok message /\
    format_telegram_message (Spec.record tag display url notes asset_names)
    = Ok text /\
    text = Py.join Py.nl message /\
    matched `sublist_of` important_keywords /\
    (forall keyword, In keyword matched <->
       In keyword important_keywords /\ Spec.occurs_ci keyword notes) /\
    List.filter Spec.is_warning_line message = map Spec.warning_line matched /\
    (forall keyword, In keyword important_keywords ->
       (In (Spec.warning_line keyword) message <-> Spec.occurs_ci keyword notes)) /\
    text
    = Py.join Py.nl (List.filter (fun line => negb (Spec.is_warning_line line)) message)
      +:+ String.concat ""
            (map (fun keyword => Py.nl +:+ Spec.warning_line keyword) matched) /\
    (forall keyword, In keyword important_keywords ->
       Spec.occurs_ci keyword notes ->
       Py.contains (Py.nl +:+ Spec.warning_line keyword) text = true /\
       Py.contains (Spec.warning_line keyword) text = true) /\
    (forall keyword, In keyword important_keywords ->
       ~ Spec.occurs_ci keyword notes ->
       Py.contains (Spec.warning_line keyword)
         (String.concat ""
            (map (fun keyword => Py.nl +:+ Spec.warning_line keyword) matched))
       = false).
Proof.
  pose proof (message_lines_record tag display url notes asset_names) as Hlines.
  set (notes_line := (Spec.notes_header +:+ _)) in Hlines.
  set (message := (_ ++ _ ++ _)%list) in Hlines.
  exists message, (Spec.matched_keywords notes), (Py.join Py.nl message).
  assert (List.filter Spec.is_warning_line message
          = map Spec.warning_line (Spec.matched_keywords notes)) as Hfilter.
  { unfold message. rewrite !List.filter_app.
    rewrite (filter_none _ (Spec.front_lines _ _ _ _)).
    2:{ intros line H. now apply front_lines_plain in H. }
    rewrite (filter_all _ (map _ _)).
    2:{ intros line H. apply in_map_iff in H as (k & <- & _).
        apply warning_line_is_warning. }
    cbn [List.filter]. unfold notes_line. now rewrite notes_line_not_warning. }
  assert (Py.join Py.nl message
          = Py.join Py.nl
              (List.filter (fun line => negb (Spec.is_warning_line line)) message)
            +:+ String.concat ""
                  (map (fun keyword => Py.nl +:+ Spec.warning_line keyword)
                     (Spec.matched_keywords notes))) as Htext.
  { unfold message. rewrite !List.filter_app.
    rewrite (filter_all _ (Spec.front_lines _ _ _ _)).
    2:{ intros line H. apply front_lines_plain in H as [_ ->]. reflexivity. }
    rewrite (filter_none _ (map _ _)).
    2:{ intros line H. apply in_map_iff in H as (k & <- & _). reflexivity. }
    cbn [List.filter]. unfold notes_line at 2. rewrite notes_line_not_warning.
    cbn [negb]. rewrite app_nil_r, app_assoc.
    rewrite join_app_lines by (unfold Spec.front_lines; discriminate).
    now rewrite map_map. }
  split; [exact Hlines|].
  split; [unfold format_telegram_message; now rewrite Hlines|].
  split; [reflexivity|].
  split; [apply matched_keywords_sublist|].
  split; [intros keyword; apply matched_keywords_in|].
  split; [exact Hfilter|].
  split; [|split; [exact Htext|split]].
  - intros keyword Hk. split.
    + intros Hin.
      assert (In (Spec.warning_line keyword) (List.filter Spec.is_warning_line message))
        as Hin' by (apply filter_In; split; [exact Hin|apply warning_line_is_warning]).
      rewrite Hfilter in Hin'. apply in_map_iff in Hin' as (k & Heq & Hm).
      apply matched_keywords_in in Hm as [Hk' Hocc].
      now rewrite <- (warning_line_inj _ _ Hk' Hk Heq).
    + intros Hocc. unfold message. rewrite !in_app_iff. right. right.
      apply in_map. apply matched_keywords_in. now split.
  - intros keyword Hk Hocc.
    assert (In (Spec.warning_line keyword)
              (map Spec.warning_line (Spec.matched_keywords notes))) as Hin
      by (apply in_map, matched_keywords_in; now split).
    destruct (concat_lines_In Py.nl _ _ Hin) as (before & after & Hcat).
    rewrite map_map in Hcat. rewrite Htext, Hcat.
    set (base := Py.join Py.nl _).
    split; apply contains_spec.
    + exists (base +:+ before), after. now rewrite !append_assoc.
    + exists (base +:+ before +:+ Py.nl), after. now rewrite !append_assoc.
  - intros keyword Hk Hocc.
    assert (~ In keyword (Spec.matched_keywords notes)) as Hout
      by (intros Hin; apply matched_keywords_in in Hin; tauto).
    apply warnings_without; [exact Hk|exact Hout].
Qed.

Lemma format_keyword_warnings_witness :
  let notes := Sample.filler 600 +:+ " Mandatory Upgrade for all" in
  exists message text,
    message_lines (Sample.release "10.1.4" notes) = Ok message /\
    In (Spec.warning_line "mandatory upgrade") message /\
    format_telegram_message (Sample.release "10.1.4" notes) = Ok text /\
    Py.contains (Spec.warning_line "mandatory upgrade") text = true /\
    Py.contains "Mandatory Upgrade" text = false.
Proof.
  intros notes.
  destruct (format_keyword_warnings "10.1.4" "Cardano Node 10.1.4"
              "https://github.com/IntersectMBO/cardano-node/releases/tag/10.1.4"
              notes ["cardano-node-linux.tar.gz"])
    as (message & matched & text & Hlines & Hformat & Htext & _ & _ & _ & Hwarn
        & _ & Hfound & _).
  assert (In "mandatory upgrade" important_keywords) as Hk
    by (right; right; left; reflexivity).
  assert (Spec.occurs_ci "mandatory upgrade" notes) as Hocc.
  { exists (Sample.filler 600 +:+ " "), "Mandatory Upgrade", " for all".
    split; reflexivity. }
  exists message, text. split; [exact Hlines|].
  split; [now apply Hwarn|]. split; [exact Hformat|].
  split; [now apply Hfound|].
  vm_compute in Hlines. injection Hlines as <-. subst text. vm_compute. reflexivity.
Defined.

(** * Further properties of the program *)

(** ** More on the version parser *)

Section parse_version_more.

Implicit Types (s seg : string) (c sep : ascii) (l : list ascii).

Lemma char_in_In c s : Py.char_in c s = true <-> In c (list_ascii_of_string s).
Proof.
  induction s as [|d s IH]; simpl; [split; [discriminate|tauto]|].
  rewrite orb_true_iff, Ascii.eqb_eq, IH. split; intros [H|H]; auto.
Qed.

Lemma char_in_false_cons c d s :
  Py.char_in c (String d s) = false <-> c <> d /\ Py.char_in c s = false.
Proof.
  simpl. rewrite orb_false_iff. split; intros [H1 H2]; split; auto.
  - intros ->. now rewrite Ascii.eqb_refl in H1.
  - now apply Ascii.eqb_neq.
Qed.

(** No segment of a split holds the separator, and a character absent from
    the string is absent from every segment. *)
Lemma split_segments_free sep s :
  Forall (fun seg => Py.char_in sep seg = false) (Py.split sep s).
Proof.
  induction s as [|c s IH]; simpl; [repeat constructor|].
  destruct (Ascii.eqb_spec c sep) as [->|Hne]; [now constructor|].
  destruct (Py.split sep s) as [|seg segs]; [repeat constructor|].
  - apply char_in_false_cons. split; [congruence|reflexivity].
  - inversion IH; subst. constructor; [|assumption].
    apply char_in_false_cons. split; [congruence|assumption].
Qed.

Lemma split_preserves_free c sep s :
  Py.char_in c s = false ->
  Forall (fun seg => Py.char_in c seg = false) (Py.split sep s).
Proof.
  induction s as [|d s IH]; simpl; [repeat constructor|].
  intros H. apply orb_false_iff in H as [Hd Hs]. specialize (IH Hs).
  destruct (Ascii.eqb d sep); [now constructor|].
  destruct (Py.split sep s) as [|seg segs]; [repeat constructor|].
  - simpl. now rewrite Hd.
  - inversion IH; subst. constructor; [|assumption].
    simpl. rewrite Hd. assumption.
Qed.

Lemma drop_spaces_In c l : In c (Py.drop_spaces l) -> In c l.
Proof.
  induction l as [|d l IH]; simpl; [tauto|].
  destruct (Py.is_space d); simpl; auto.
Qed.

Lemma digit_value_nonneg c : Py.is_digit c = true -> 0 <= Py.digit_value c.
Proof.
  unfold Py.is_digit, Py.digit_value. intros H.
  apply andb_true_iff in H as [H _]. apply N.leb_le in H. lia.
Qed.

Lemma more_digits_nonneg l : forall acc n,
  0 <= acc -> Py.more_digits acc l = Some n -> 0 <= n.
Proof.
  induction l as [l IH] using (induction_ltof1 _ (@length ascii)).
  unfold ltof in IH. intros acc n Hacc.
  destruct l as [|c l]; simpl; [intros [= <-]; exact Hacc|].
  destruct (Py.is_digit c) eqn:Hc.
  - apply IH; [simpl; lia|]. pose proof (digit_value_nonneg c Hc). lia.
  - destruct (Ascii.eqb c "_"); [|discriminate].
    destruct l as [|d l]; [discriminate|].
    destruct (Py.is_digit d) eqn:Hd; [|discriminate].
    apply IH; [simpl; lia|]. pose proof (digit_value_nonneg d Hd). lia.
Qed.

Lemma digits_nonneg l n : Py.digits l = Some n -> 0 <= n.
Proof.
  destruct l as [|c l]; simpl; [discriminate|].
  destruct (Py.is_digit c) eqn:Hc; [|discriminate].
  apply more_digits_nonneg. now apply digit_value_nonneg.
Qed.

(** [int] of a string without a minus sign is not negative. *)
Lemma int_nonneg s n : Py.char_in "-" s = false -> Py.int s = Ok n -> 0 <= n.
Proof.
  intros Hfree. unfold Py.int.
  set (body := rev _).
  assert (forall c, In c body -> In c (list_ascii_of_string s)) as Hbody.
  { intros c H. unfold body in H. apply in_rev in H.
    apply drop_spaces_In in H. apply in_rev in H. now apply drop_spaces_In in H. }
  destruct body as [|c l]; [discriminate|].
  destruct (Ascii.eqb_spec c "+") as [->|_].
  - destruct (Py.digits l) as [m|] eqn:E; [|discriminate].
    intros [= <-]. now apply digits_nonneg in E.
  - destruct (Ascii.eqb_spec c "-") as [->|_].
    + exfalso. assert (Py.char_in "-" s = true) as H; [|congruence].
      apply char_in_In. apply Hbody. now left.
    + destruct (Py.digits (c :: l)) as [m|] eqn:E; [|discriminate].
      intros [= <-]. now apply digits_nonneg in E.
Qed.

Lemma map_result_Forall {A B} (f : A -> result B) (P : A -> Prop) (Q : B -> Prop)
    (xs : list A) (ys : list B) :
  (forall x y, P x -> f x = Ok y -> Q y) ->
  Forall P xs -> Py.map_result f xs = Ok ys -> Forall Q ys.
Proof.
  intros Hf. revert ys. induction xs as [|x xs IH]; intros ys HP; simpl.
  - intros [= <-]. constructor.
  - inversion HP; subst.
    destruct (f x) as [y|e] eqn:E; simpl; [|discriminate].
    destruct (Py.map_result f xs) as [ys'|e]; simpl; [|discriminate].
    intros [= <-]. constructor; eauto.
Qed.

End parse_version_more.

(** X1: no numeric component of a parsed version is negative: the text
    before the first dash holds no minus sign, so every component is zero
    or more, whatever the tag. *)
Theorem parse_version_nonnegative tag :
  Forall (fun n => 0 <= n) (fst (_parse_version tag)).
Proof.
  unfold _parse_version.
  pose proof (split_segments_free "-" (Py.lstrip "v" tag)) as Hfree.
  destruct (Py.split "-" (Py.lstrip "v" tag)) as [|first others]; simpl;
    [repeat constructor; lia|].
  inversion Hfree as [|? ? Hfirst _]; subst.
  destruct (Py.map_result Py.int (Py.split "." first)) as [nums|e] eqn:E; simpl;
    [|repeat constructor; lia].
  eapply map_result_Forall; [|apply (split_preserves_free "-" "." first Hfirst)|exact E].
  intros s n Hs Hn. exact (int_nonneg s n Hs Hn).
Qed.

Section split_first.

Implicit Types (s first rest : string) (sep : ascii).

#[local] Arguments String.append : simpl nomatch.

Lemma split_app sep first rest :
  Py.char_in sep first = false ->
  Py.split sep (first +:+ String sep rest) = first :: Py.split sep rest.
Proof.
  induction first as [|c first IH]; simpl.
  - intros _. now rewrite Ascii.eqb_refl.
  - intros H. apply orb_false_iff in H as [Hc Hfirst].
    rewrite Ascii.eqb_sym in Hc. rewrite Hc, (IH Hfirst). reflexivity.
Qed.

Lemma split_first_inv sep s first others :
  Py.split sep s = first :: others ->
  (others = [] /\ s = first) \/
  (exists rest, s = first +:+ String sep rest /\ Py.split sep rest = others).
Proof.
  revert first others. induction s as [|c s IH]; intros first others; simpl.
  - intros [= <- <-]. now left.
  - destruct (Ascii.eqb_spec c sep) as [->|Hne].
    + intros [= <- <-]. right. now exists s.
    + destruct (Py.split sep s) as [|seg segs] eqn:E.
      * now apply split_not_nil in E.
      * intros [= <- <-]. destruct (IH seg segs eq_refl) as [[-> ->]|(rest & -> & Hrest)].
        -- now left.
        -- right. now exists rest.
Qed.

End split_first.

(** X2: a tag parses to the components [nums] with the pre-release flag
    raised exactly when, after its leading [v]s, it has a dash, and the text
    before the first dash is a dot-separated list of integers, which are
    [nums].  A tag whose text before the first dash is not numeric is never
    flagged, dash or not. *)
Theorem parse_version_pre_release tag nums :
  _parse_version tag = (nums, true) <->
  exists first rest,
    Py.lstrip "v" tag = first +:+ String "-" rest /\
    Py.char_in "-" first = false /\
    Py.map_result Py.int (Py.split "." first) = Ok nums.
Proof.
  unfold _parse_version. split.
  - pose proof (split_segments_free "-" (Py.lstrip "v" tag)) as Hfree.
    destruct (Py.split "-" (Py.lstrip "v" tag)) as [|first others] eqn:E; simpl;
      [discriminate|].
    inversion Hfree as [|? ? Hfirst _]; subst.
    destruct (Py.map_result Py.int (Py.split "." first)) as [ns|e] eqn:En; simpl;
      [|discriminate].
    intros [= <- Hflag].
    destruct (split_first_inv _ _ _ _ E) as [[-> _]|(rest & Hs & _)];
      [simpl in Hflag; discriminate|].
    now exists first, rest.
  - intros (first & rest & -> & Hfirst & Hnums).
    rewrite (split_app _ _ _ Hfirst). simpl. rewrite Hnums. simpl.
    pose proof (split_not_nil "-" rest).
    destruct (Py.split "-" rest); [congruence|reflexivity].
Qed.

Lemma parse_version_pre_release_witness :
  _parse_version "vv10.1.4-rc-2" = ([10; 1; 4], true) /\
  exists first rest,
    Py.lstrip "v" "v1.35.7-pre" = first +:+ String "-" rest /\
    Py.char_in "-" first = false /\
    Py.map_result Py.int (Py.split "." first) = Ok [1; 35; 7].
Proof.
  split.
  - apply parse_version_pre_release. exists "10.1.4", "rc-2". repeat split.
  - apply parse_version_pre_release. reflexivity.
Defined.

(** ** More on the version cache *)

(** X3: a newly constructed monitor starts from an identifier [x] exactly
    when the cache file exists, reads as a JSON object, and that object
    holds the string [x] under [last_release].  In every other case (no
    file, a file that cannot be read or parsed, JSON that is not an object,
    a missing key, a null) the monitor starts as on a first run, and the
    constructor does not raise. *)
Theorem init_last_release notifier interval w x :
  last_release (__init__ notifier interval w) = Some x <->
  exists members,
    files w !! "cardano_node_last_release.json" = Some (Json (JObject members)) /\
    members !! "last_release" = Some (Some x).
Proof.
  unfold __init__, _load_cache, exists_, json_load. simpl cache_file.
  destruct (files w !! "cardano_node_last_release.json") as [[|[members|]]|] eqn:E.
  - rewrite bool_decide_true by eauto. simpl. split; [discriminate|].
    intros (m & [=] & _).
  - rewrite bool_decide_true by eauto. simpl. split.
    + intros H. exists members. split; [reflexivity|].
      destruct (members !! "last_release") as [[y|]|]; simpl in H; congruence.
    + intros (m & [= <-] & ->). reflexivity.
  - rewrite bool_decide_true by eauto. simpl. split; [discriminate|].
    intros (m & [=] & _).
  - rewrite bool_decide_false by (intros [? ?]; discriminate). simpl.
    split; [discriminate|]. intros (m & [=] & _).
Qed.

Lemma init_last_release_witness :
  last_release (__init__ Sample.notifier 60 (Sample.world_with (Some "10.1.3")))
  = Some "10.1.3" /\
  exists members,
    files (Sample.world_with (Some "9.0.0")) !! "cardano_node_last_release.json"
    = Some (Json (JObject members)) /\
    members !! "last_release" = Some (Some "9.0.0").
Proof.
  split.
  - apply init_last_release. eexists. split; reflexivity.
  - apply (init_last_release Sample.notifier 3600). reflexivity.
Defined.

(** ** More on the message formatter *)

Section formatter_more.

Implicit Types (r : release_info) (message : list string).

Lemma keyword_fold lowered message :
  fold_left
    (fun message keyword =>
       if Py.contains keyword lowered
       then Py.append message
              (Py.nl +:+ "⚠️ <b>IMPORTANT:</b> This release contains a "
               +:+ keyword +:+ "!")
       else message)
    important_keywords message
  = (message ++ map Spec.warning_line
                  (List.filter (fun keyword => Py.contains keyword lowered)
                     important_keywords))%list.
Proof.
  unfold important_keywords. cbn [fold_left List.filter].
  destruct (Py.contains "breaking change" lowered),
           (Py.contains "upgrade required" lowered),
           (Py.contains "mandatory upgrade" lowered);
    unfold Py.append; cbn [map]; rewrite <- ?app_assoc; cbn [app];
    rewrite ?app_nil_r; reflexivity.
Qed.

(** The formatter, for any record: the five subscripts in the order the
    program makes them and the length of the notes, then the laid out
    message. *)
Lemma message_lines_eq r :
  message_lines r
  = (tag ← Py.subscript "tag_name" (tag_name r);
     display ← Py.subscript "name" (name r);
     url ← Py.subscript "html_url" (html_url r);
     names ← Py.map_result (fun a => Py.subscript "name" (asset_name a))
                (default [] (assets r));
     notes ← Py.subscript "body" (body r);
     notes ← Py.sized notes;
     Ok (Spec.front_lines tag (Py.format display) url names
         ++ [Spec.notes_header +:+
             (if (500 <? String.length notes)%nat
              then Py.slice_to 497 notes +:+ "..." else notes)]
         ++ map Spec.warning_line (Spec.matched_keywords notes))%list).
Proof.
  unfold message_lines, Spec.front_lines, Spec.matched_keywords.
  destruct (tag_name r) as [tag|]; [|reflexivity].
  destruct (name r) as [display|]; [|reflexivity].
  destruct (html_url r) as [url|]; [|reflexivity].
  cbn [Py.subscript mbind result_bind].
  assert (forall front : list string,
    (notes ← Py.subscript "body" (body r);
     notes ← Py.sized notes;
     full ← Py.subscript "body" (body r);
     release_notes_lower ← Py.lower_method full;
     Ok (fold_left
           (fun message keyword =>
              if Py.contains keyword release_notes_lower
              then Py.append message
                     (Py.nl +:+ "⚠️ <b>IMPORTANT:</b> This release contains a "
                      +:+ keyword +:+ "!")
              else message)
           important_keywords
           (Py.append front
              (Py.nl +:+ "<b>Release Notes:</b>" +:+ Py.nl +:+
               (if (500 <? Py.len notes)%nat
                then Py.slice_to 497 notes +:+ "..." else notes)))))
    = (notes ← Py.subscript "body" (body r);
       notes ← Py.sized notes;
       Ok (front
           ++ [Spec.notes_header +:+
               (if (500 <? String.length notes)%nat
                then Py.slice_to 497 notes +:+ "..." else notes)]
           ++ map Spec.warning_line
                (List.filter (fun keyword => Py.contains keyword (Py.lower notes))
                   important_keywords))%list)) as Htail.
  { intros front. destruct (body r) as [[|notes]|]; [reflexivity| |reflexivity].
    cbn [Py.subscript Py.sized Py.lower_method mbind result_bind].
    rewrite keyword_fold. unfold Py.append. now rewrite <- app_assoc. }
  destruct (assets r) as [[|a listed]|]; cbn [default from_option id].
  - cbn [Py.map_result mbind result_bind]. rewrite Htail. unfold Py.append.
    destruct (snd (_parse_version tag)); cbn [app]; rewrite <- ?app_assoc;
      rewrite ?app_nil_r; reflexivity.
  - destruct (Py.map_result _ (a :: listed)) as [names|e] eqn:E; [|reflexivity].
    cbn [mbind result_bind]. rewrite fold_left_append, Htail. unfold Py.append.
    assert (exists n ns, names = n :: ns) as (n & ns & ->).
    { simpl in E. destruct (asset_name a); [|discriminate]. simpl in E.
      destruct (Py.map_result _ listed); [|discriminate]. simpl in E.
      injection E as <-. eauto. }
    destruct (snd (_parse_version tag)); cbn [app]; rewrite <- ?app_assoc;
      reflexivity.
  - cbn [Py.map_result mbind result_bind]. rewrite Htail. unfold Py.append.
    destruct (snd (_parse_version tag)); cbn [app]; rewrite <- ?app_assoc;
      rewrite ?app_nil_r; reflexivity.
Qed.

(** The names of a list of assets are read exactly when each has one. *)
Lemma asset_names_iff (listed : list asset) :
  (exists names,
     Py.map_result (fun a => Py.subscript "name" (asset_name a)) listed = Ok names)
  <-> Forall (fun a => is_Some (asset_name a)) listed.
Proof.
  induction listed as [|a listed IH]; simpl.
  - split; [constructor|eauto].
  - split.
    + intros [names H]. destruct (asset_name a) as [n|] eqn:Ea; [|discriminate].
      simpl in H. destruct (Py.map_result _ listed) as [ns|e]; [|discriminate].
      constructor; [rewrite Ea; eauto|]. apply IH. eauto.
    + intros H. inversion H as [|? ? [n Hn] Hl]; subst. rewrite Hn. simpl.
      apply IH in Hl as [ns ->]. simpl. eauto.
Qed.

Lemma asset_names_raise (listed : list asset) e :
  Py.map_result (fun a => Py.subscript "name" (asset_name a)) listed = Raise e ->
  e = KeyError "name".
Proof.
  induction listed as [|a listed IH]; simpl; [discriminate|].
  destruct (asset_name a); simpl; [|now intros [= <-]].
  destruct (Py.map_result _ listed); simpl; [discriminate|].
  intros [= <-]. now apply IH.
Qed.

Lemma asset_names_map (listed : list asset) names :
  Py.map_result (fun a => Py.subscript "name" (asset_name a)) listed = Ok names ->
  map asset_name listed = map Some names.
Proof.
  revert names. induction listed as [|a listed IH]; intros names; simpl.
  - now intros [= <-].
  - destruct (asset_name a) as [n|]; [|discriminate]. simpl.
    destruct (Py.map_result _ listed) as [ns|e]; [|discriminate]. simpl.
    intros [= <-]. simpl. now rewrite (IH ns).
Qed.

End formatter_more.

Section formatter_layout.

Implicit Types (r : release_info) (message : list string).

(** What a message that was built is made of. *)
Lemma message_lines_layout r message :
  message_lines r = Ok message ->
  exists tag display url names notes,
    tag_name r = Some tag /\
    (exists shown, name r = Some shown /\ display = Py.format shown) /\
    html_url r = Some url /\ body r = Some (Str notes) /\
    Py.map_result (fun a => Py.subscript "name" (asset_name a))
      (default [] (assets r)) = Ok names /\
    message
    = (Spec.front_lines tag display url names
       ++ [Spec.notes_header +:+
           (if (500 <? String.length notes)%nat
            then Py.slice_to 497 notes +:+ "..." else notes)]
       ++ map Spec.warning_line (Spec.matched_keywords notes))%list.
Proof.
  rewrite message_lines_eq.
  destruct (tag_name r) as [tag|]; [|discriminate].
  destruct (name r) as [display|]; [|discriminate].
  destruct (html_url r) as [url|]; [|discriminate].
  cbn [Py.subscript mbind result_bind].
  destruct (Py.map_result _ (default [] (assets r))) as [names|e]; [|discriminate].
  destruct (body r) as [[|notes]|]; [discriminate| |discriminate].
  cbn [Py.subscript Py.sized mbind result_bind]. intros [= <-].
  exists tag, (Py.format display), url, names, notes. eauto 10.
Qed.

(** The lines of a message that begin with [prefix], when no line after
    the first three and outside the pre-release note, the heading of the
    downloads and the bullets does. *)
Lemma filter_front_lines (f : string -> bool) tag display url names :
  f "🔔 <b>New Cardano Node Release!</b>" = false ->
  f (Py.nl +:+ "<b>Version:</b> " +:+ tag) = false ->
  f ("<b>Name:</b> " +:+ display) = false ->
  f (Py.nl +:+ "<b>Release URL:</b> " +:+ url) = false ->
  List.filter f (Spec.front_lines tag display url names)
  = ((if snd (_parse_version tag) then List.filter f [Spec.pre_release_note] else [])
     ++ match names with
        | [] => []
        | _ => List.filter f [Spec.downloads_header]
               ++ List.filter f (map Spec.bullet names)
        end)%list.
Proof.
  intros H1 H2 H3 H4.
  unfold Spec.front_lines, Spec.pre_release_note, Spec.downloads_header.
  destruct (snd (_parse_version tag)), names; cbn [app List.filter];
    rewrite H1, H2, H3, H4;
    repeat match goal with
           | |- context [if f ?line then _ else _] => destruct (f line)
           end;
    reflexivity.
Qed.

End formatter_layout.

(** When the formatter returns and what it raises. *)
Lemma format_outcome r :
  ((exists text, format_telegram_message r = Ok text) <-> Spec.complete r) /\
  (forall e, format_telegram_message r = Raise e ->
     (exists key, e = KeyError key /\ In key ["tag_name"; "name"; "html_url"; "body"]) \/
     (e = TypeError /\ body r = Some Null)) /\
  (is_Some (tag_name r) -> is_Some (name r) -> is_Some (html_url r) ->
   Forall (fun a => is_Some (asset_name a)) (default [] (assets r)) ->
   body r = Some Null ->
   format_telegram_message r = Raise TypeError).
Proof.
  unfold format_telegram_message, Spec.complete. rewrite message_lines_eq.
  pose proof (asset_names_iff (default [] (assets r))) as Hnames.
  pose proof (asset_names_raise (default [] (assets r))) as Hraise.
  destruct (tag_name r) as [tag|]; cbn [Py.subscript mbind result_bind].
  2:{ split; [split; [intros [? [=]]|intros [[? [=]] _]]|split].
      - intros e [= <-]. left. exists "tag_name". split; [reflexivity|simpl; tauto].
      - intros [? [=]]. }
  destruct (name r) as [display|]; cbn [Py.subscript mbind result_bind].
  2:{ split; [split; [intros [? [=]]|intros (_ & [? [=]] & _)]|split].
      - intros e [= <-]. left. exists "name". split; [reflexivity|simpl; tauto].
      - intros _ [? [=]]. }
  destruct (html_url r) as [url|]; cbn [Py.subscript mbind result_bind].
  2:{ split; [split; [intros [? [=]]|intros (_ & _ & [? [=]] & _)]|split].
      - intros e [= <-]. left. exists "html_url". split; [reflexivity|simpl; tauto].
      - intros _ _ [? [=]]. }
  destruct (Py.map_result _ (default [] (assets r))) as [names|e0];
    cbn [mbind result_bind].
  2:{ split; [|split].
      - split; [intros [? [=]]|]. intros (_ & _ & _ & _ & H).
        apply Hnames in H as [? [=]].
      - intros e [= <-]. left. exists "name".
        split; [now apply Hraise|simpl; tauto].
      - intros _ _ _ H. apply Hnames in H as [? [=]]. }
  destruct (body r) as [[|notes]|];
    cbn [Py.subscript Py.sized mbind result_bind].
  - split; [split; [intros [? [=]]|intros (_ & _ & _ & [? [=]] & _)]|split].
    + intros e [= <-]. now right.
    + reflexivity.
  - split; [|split; discriminate].
    split; [|eauto]. intros _. repeat split; eauto. apply Hnames. eauto.
  - split; [split; [intros [? [=]]|intros (_ & _ & _ & [? [=]] & _)]|split].
    + intros e [= <-]. left. exists "body". split; [reflexivity|simpl; tauto].
    + discriminate.
Qed.

(** X4: [format_telegram_message] returns a message exactly when the
    record has [tag_name], [name], [html_url] and [body], the [body] is a
    string, and every asset it lists has a [name]; a missing [assets] key
    is no error, and neither is a [name] that is null.  When it raises, it
    raises [KeyError] for one of those four keys, or [TypeError] because
    the [body] is null, and nothing else; and a record that lacks nothing
    but whose [body] is null does make it raise [TypeError]. *)
Theorem format_succeeds_iff r :
  ((exists text, format_telegram_message r = Ok text) <-> Spec.complete r) /\
  (forall e, format_telegram_message r = Raise e ->
     (exists key, e = KeyError key /\ In key ["tag_name"; "name"; "html_url"; "body"]) \/
     (e = TypeError /\ body r = Some Null)) /\
  (is_Some (tag_name r) -> is_Some (name r) -> is_Some (html_url r) ->
   Forall (fun a => is_Some (asset_name a)) (default [] (assets r)) ->
   body r = Some Null ->
   format_telegram_message r = Raise TypeError).
Proof. exact (format_outcome r). Qed.

Lemma format_succeeds_iff_witness :
  (exists text, format_telegram_message (Sample.release "10.1.4" "Fixes.") = Ok text) /\
  (exists text,
     format_telegram_message
       {| tag_name := Some "10.1.4"; name := Some Null;
          html_url := Some "https://x"; body := Some "Fixes.";
          assets := None |} = Ok text) /\
  ~ Spec.complete
      {| tag_name := Some "10.1.4"; name := Some "Cardano Node 10.1.4";
         html_url := Some "https://x"; body := Some "";
         assets := Some [ {| asset_name := None |} ] |} /\
  format_telegram_message
    {| tag_name := Some "10.1.4"; name := Some "Cardano Node 10.1.4";
       html_url := Some "https://x"; body := Some Null;
       assets := Some [] |} = Raise TypeError.
Proof.
  split; [|split; [|split]].
  - apply (proj1 (format_succeeds_iff _)). unfold Spec.complete. simpl.
    repeat split; eauto.
  - apply (proj1 (format_succeeds_iff _)). unfold Spec.complete. simpl.
    repeat split; eauto.
  - intros H. apply (proj1 (format_succeeds_iff _)) in H as [text H]. discriminate H.
  - apply (proj2 (proj2 (format_succeeds_iff _))); simpl; eauto.
Defined.

(** X5: in a message that was built, the lines that are bullets are the
    bullets of the record's asset names, one per asset and in the feed's
    order, and the heading of the downloads is there exactly when the
    record lists at least one asset: an empty list is treated like a
    missing [assets] key. *)
Theorem format_lists_assets r message :
  message_lines r = Ok message ->
  exists names,
    map asset_name (default [] (assets r)) = map Some names /\
    List.filter (Py.startswith "• ") message = map Spec.bullet names /\
    (In Spec.downloads_header message <-> names <> []).
Proof.
  intros H.
  apply message_lines_layout in H
    as (tag & display & url & names & notes & _ & _ & _ & _ & Hnames & ->).
  exists names. split; [now apply asset_names_map|]. split.
  - rewrite !List.filter_app, filter_front_lines by reflexivity.
    rewrite (filter_none _ (map Spec.warning_line _)).
    2:{ intros line Hl. now apply in_map_iff in Hl as (k & <- & _). }
    cbn [List.filter]. rewrite !app_nil_r.
    assert (List.filter (Py.startswith "• ") (map Spec.bullet names)
            = map Spec.bullet names) as Hb.
    { apply filter_all. intros line Hl. now apply in_map_iff in Hl as (n & <- & _). }
    destruct (snd (_parse_version tag)), names; cbn [List.filter app];
      try reflexivity; exact Hb.
  - assert (List.filter (Py.startswith Spec.downloads_header)
              (Spec.front_lines tag display url names
               ++ [Spec.notes_header +:+
                    (if (500 <? String.length notes)%nat
                     then Py.slice_to 497 notes +:+ "..." else notes)]
               ++ map Spec.warning_line (Spec.matched_keywords notes))
            = match names with [] => [] | _ => [Spec.downloads_header] end) as Hf.
    { rewrite !List.filter_app, filter_front_lines by reflexivity.
      rewrite (filter_none _ (map Spec.warning_line _)).
      2:{ intros line Hl. now apply in_map_iff in Hl as (k & <- & _). }
      cbn [List.filter]. rewrite !app_nil_r.
      assert (List.filter (Py.startswith Spec.downloads_header) (map Spec.bullet names)
              = []) as Hb.
      { apply filter_none. intros line Hl.
        now apply in_map_iff in Hl as (n & <- & _). }
      destruct (snd (_parse_version tag)), names; cbn [List.filter app];
        rewrite ?Hb; reflexivity. }
    split.
    + intros Hin Hnil. subst names.
      assert (In Spec.downloads_header []) as []. rewrite <- Hf.
      apply filter_In. split; [exact Hin|reflexivity].
    + intros Hne. destruct names as [|n ns]; [congruence|].
      assert (In Spec.downloads_header [Spec.downloads_header]) as Hin by now left.
      rewrite <- Hf in Hin. now apply filter_In in Hin.
Qed.

Lemma format_lists_assets_witness :
  exists message,
    message_lines
      {| tag_name := Some "10.1.4"; name := Some "Cardano Node 10.1.4";
         html_url := Some "https://x"; body := Some "";
         assets := Some [ {| asset_name := Some "linux.tar.gz" |};
                          {| asset_name := Some "macos.tar.gz" |} ] |} = Ok message /\
    List.filter (Py.startswith "• ") message
    = [Spec.bullet "linux.tar.gz"; Spec.bullet "macos.tar.gz"] /\
    In Spec.downloads_header message.
Proof.
  eexists. split; [reflexivity|].
  match goal with
  | |- context [List.filter _ ?m] =>
      destruct (format_lists_assets
                  {| tag_name := Some "10.1.4"; name := Some "Cardano Node 10.1.4";
                     html_url := Some "https://x"; body := Some "";
                     assets := Some [ {| asset_name := Some "linux.tar.gz" |};
                                      {| asset_name := Some "macos.tar.gz" |} ] |}
                  m eq_refl) as (names & Hnames & Hbullets & Hheader)
  end.
  simpl in Hnames. destruct names as [|n1 [|n2 [|n3 ns]]]; try discriminate Hnames.
  injection Hnames as <- <-.
  split; [exact Hbullets|]. apply Hheader. discriminate.
Defined.

(** X6: in a message that was built, the pre-release note is there exactly
    when [_parse_version] flags the record's tag as a pre-release. *)
Theorem format_pre_release_note r message tag :
  message_lines r = Ok message ->
  tag_name r = Some tag ->
  (In Spec.pre_release_note message <-> snd (_parse_version tag) = true).
Proof.
  intros H Htag.
  apply message_lines_layout in H
    as (tag' & display & url & names & notes & Htag' & _ & _ & _ & _ & ->).
  assert (tag' = tag) as -> by congruence.
  assert (List.filter (Py.startswith Spec.pre_release_note)
            (Spec.front_lines tag display url names
             ++ [Spec.notes_header +:+
                  (if (500 <? String.length notes)%nat
                   then Py.slice_to 497 notes +:+ "..." else notes)]
             ++ map Spec.warning_line (Spec.matched_keywords notes))
          = if snd (_parse_version tag) then [Spec.pre_release_note] else []) as Hf.
  { rewrite !List.filter_app, filter_front_lines by reflexivity.
    rewrite (filter_none _ (map Spec.warning_line _)).
    2:{ intros line Hl. now apply in_map_iff in Hl as (k & <- & _). }
    cbn [List.filter]. rewrite !app_nil_r.
    assert (List.filter (Py.startswith Spec.pre_release_note) (map Spec.bullet names)
            = []) as Hb.
    { apply filter_none. intros line Hl.
      now apply in_map_iff in Hl as (n & <- & _). }
    destruct (snd (_parse_version tag)), names; cbn [List.filter app];
      rewrite ?Hb; reflexivity. }
  split.
  - intros Hin. destruct (snd (_parse_version tag)); [reflexivity|].
    assert (In Spec.pre_release_note []) as []. rewrite <- Hf.
    apply filter_In. split; [exact Hin|reflexivity].
  - intros Hflag. rewrite Hflag in Hf.
    assert (In Spec.pre_release_note [Spec.pre_release_note]) as Hin by now left.
    rewrite <- Hf in Hin. now apply filter_In in Hin.
Qed.

Lemma format_pre_release_note_witness :
  exists message,
    message_lines (Sample.release "v10.2.0-pre" "") = Ok message /\
    In Spec.pre_release_note message.
Proof.
  eexists. split; [reflexivity|].
  eapply (format_pre_release_note (Sample.release "v10.2.0-pre" "") _ "v10.2.0-pre");
    reflexivity.
Defined.

(** ** More on the release checker *)

Section checker_more.

Implicit Types (io : env) (w : world) (self : t).

Lemma save_cache_other wr w self path :
  path <> cache_file self ->
  files (_save_cache wr w self) !! path = files w !! path.
Proof.
  intros H. destruct wr; simpl; [|reflexivity|]; now rewrite lookup_insert_ne.
Qed.

Lemma set_last_release_same self : set_last_release (last_release self) self = self.
Proof. now destruct self. Qed.

Lemma set_last_release_twice v v' self :
  set_last_release v (set_last_release v' self) = set_last_release v self.
Proof. reflexivity. Qed.

End checker_more.

(** X7: a call of [check_new_release] changes nothing of the monitor but
    the identifier it holds, touches no file other than the cache file, and
    leaves the files as they were whenever the identifier in memory stays
    the same.  It issues exactly one poll, first, and posts to the
    messaging endpoint only when the request to the feed failed, then the
    warning with the error's text. *)
Theorem check_new_release_frame io w self :
  let '(out, self', w') := check_new_release io w self in
  set_last_release (last_release self) self' = self /\
  (forall path, path <> cache_file self -> files w' !! path = files w !! path) /\
  (last_release self' = last_release self -> files w' = files w) /\
  exists posts,
    sent w' = (sent w ++ Spec.poll self :: posts)%list /\
    (posts = [] \/
     exists e, feed io = GetRaises e /\
       posts = [Spec.notification self
                  ("⚠️ Error checking Cardano node releases: " +:+ e)]).
Proof.
  check_cases io w self.
  - split; [apply set_last_release_same|]. split; [reflexivity|].
    split; [reflexivity|]. eexists. split; [simpl; now rewrite <- app_assoc|].
    right. eauto.
  - split; [apply set_last_release_same|]. split; [reflexivity|].
    split; [reflexivity|]. exists []. split; [reflexivity|now left].
  - split; [rewrite set_last_release_twice; apply set_last_release_same|].
    split; [intros path Hp; now rewrite save_cache_other|].
    split; [simpl; congruence|].
    exists []. split; [now rewrite save_cache_sent|now left].
  - split; [rewrite set_last_release_twice; apply set_last_release_same|].
    split; [intros path Hp; now rewrite save_cache_other|].
    split; [simpl; congruence|].
    exists []. split; [now rewrite save_cache_sent|now left].
  - split; [apply set_last_release_same|]. split; [reflexivity|].
    split; [reflexivity|]. exists []. split; [reflexivity|now left].
Qed.

(** X8: of two calls in a row that observe the same tag, the second
    returns nothing, leaves the monitor and the files as the first left
    them and issues its poll only: whatever the state before the first
    call, whatever the rest of the two responses, and whether or not the
    first call's write of the cache file succeeded. *)
Theorem check_new_release_repeated io io' w self tag :
  Spec.observed io = Some tag ->
  Spec.observed io' = Some tag ->
  let '(_, self1, w1) := check_new_release io w self in
  let '(out, self2, w2) := check_new_release io' w1 self1 in
  out = Ok None /\ self2 = self1 /\ files w2 = files w1 /\
  sent w2 = (sent w1 ++ [Spec.poll self])%list.
Proof.
  unfold Spec.observed. intros Hobs Hobs'.
  assert (forall w1 self1,
    last_release self1 = Some tag -> Spec.poll self1 = Spec.poll self ->
    let '(out, self2, w2) := check_new_release io' w1 self1 in
    out = Ok None /\ self2 = self1 /\ files w2 = files w1 /\
    sent w2 = (sent w1 ++ [Spec.poll self])%list) as Hsecond.
  { intros w1 self1 Hseen Hpoll.
    check_cases io' w1 self1; rewrite Hfeed in Hobs'; try congruence;
      rewrite Hpoll; repeat split. }
  check_cases io w self; rewrite Hfeed in Hobs; try congruence.
  - apply Hsecond; [simpl; congruence|reflexivity].
  - apply Hsecond; [simpl; congruence|reflexivity].
  - apply Hsecond; [congruence|reflexivity].
Qed.

Lemma check_new_release_repeated_witness :
  let io := Env (GetJson (Sample.release "10.1.4" "first")) DumpRaises PostOk in
  let io' := Env (GetJson (Sample.release "10.1.4" "edited")) WriteOk PostOk in
  let w := Sample.world_with (Some "10.1.3") in
  let self := Sample.monitor (Some "10.1.3") in
  let '(_, self1, w1) := check_new_release io w self in
  let '(out, self2, w2) := check_new_release io' w1 self1 in
  out = Ok None /\ self2 = self1 /\ files w2 = files w1 /\
  sent w2 = (sent w1 ++ [Spec.poll self])%list.
Proof.
  exact (check_new_release_repeated
           (Env (GetJson (Sample.release "10.1.4" "first")) DumpRaises PostOk)
           (Env (GetJson (Sample.release "10.1.4" "edited")) WriteOk PostOk)
           (Sample.world_with (Some "10.1.3")) (Sample.monitor (Some "10.1.3"))
           "10.1.4" eq_refl eq_refl).
Defined.

(** ** The notification and the loop *)

(** [notify] through the formatter. *)
Lemma notify_outcome answer w self r :
  notify answer w self r
  = match format_telegram_message r with
    | Ok text => (Ok tt, issue (Spec.notification self text) w)
    | Raise e => (Raise e, w)
    end.
Proof.
  destruct (format_telegram_message r) as [text|e] eqn:E.
  - now apply notify_sent.
  - unfold notify. unfold format_telegram_message, message_lines in *.
    destruct (tag_name r); [|simpl in *; congruence].
    destruct (name r); [|simpl in *; congruence].
    destruct (html_url r); [|simpl in *; congruence].
    cbn [Py.subscript mbind result_bind] in *. now rewrite E.
Qed.

(** X9: [notify] posts one message, the formatted text of the record, when
    the record can be formatted, and returns normally whether the POST
    succeeds or fails; when the record cannot be formatted it raises the
    formatter's exception and posts nothing.  The three fields it prints
    first never make it raise where the formatter would not. *)
Theorem notify_spec answer w self r :
  notify answer w self r
  = match format_telegram_message r with
    | Ok text => (Ok tt, issue (Spec.notification self text) w)
    | Raise e => (Raise e, w)
    end.
Proof. exact (notify_outcome answer w self r). Qed.

Section loop.

Implicit Types (io : env) (w : world) (self : t).

Lemma float_limit : 9223372036 < 2 ^ 1024 - 2 ^ 970.
Proof. vm_compute. reflexivity. Qed.



(** Where the exceptions of the end of a turn come from. *)
Lemma pause_raises answer secs e :
  pause answer secs = Raise e ->
  (~ (0 <= secs <= 9223372036) /\ (e = ValueError \/ e = OverflowError)) \/
  answer = DateRaises e \/ answer = SleepRaises e.
Proof.
  pose proof float_limit as Hbig.
  unfold pause, next_check, time_sleep, Py.float.
  set (big := 2 ^ 1024 - 2 ^ 970) in *.
  destruct (Z.leb_spec big (Z.abs secs)); cbn [mbind result_bind].
  { intros [= <-]. left. split; [lia|now right]. }
  destruct answer as [|e'|e']; cbn [mbind result_bind];
    try (intros [= <-]; now (right; left));
    (destruct (Z.ltb_spec secs 0); [intros [= <-]; left; split; [lia|now left]|]);
    (destruct (Z.ltb_spec 9223372036 secs);
       [intros [= <-]; left; split; [lia|now right]|]);
    intros [= <-]; try discriminate; now (right; right).
Qed.

(** One turn of the loop, through the case analysis of the check and the
    characterisation of [notify]: the monitor keeps all but the identifier
    it holds; the turn issues the poll and then posts to the messaging
    endpoint only; and its result is that of the end of the turn, unless
    the record the poll gave is not complete. *)
Lemma iteration_cases io w self :
  let '(res, self', w') := iteration io w self in
  set_last_release (last_release self) self' = self /\
  (exists posts,
     sent w' = (sent w ++ Spec.poll self :: posts)%list /\
     Forall (Spec.expected_request self) posts) /\
  (res = pause (clock io) (check_interval self) \/
   exists e, res = Raise e /\ Spec.format_error e /\ ~ Spec.well_behaved io).
Proof.
  unfold iteration. check_cases io w self.
  - (* the request failed *)
    cbn iota beta zeta.
    split; [apply set_last_release_same|]. split; [|now left].
    eexists. split; [simpl; now rewrite <- app_assoc|].
    constructor; [right; eauto|constructor].
  - (* no tag *)
    split; [apply set_last_release_same|].
    split; [exists []; split; [reflexivity|constructor]|].
    right. exists (KeyError "tag_name"). split; [reflexivity|]. split.
    + left. exists "tag_name". split; [reflexivity|simpl; tauto].
    + unfold Spec.well_behaved. rewrite Hfeed. intros ([? ?] & _). congruence.
  - (* first run *)
    cbn iota beta zeta.
    split; [rewrite set_last_release_twice; apply set_last_release_same|].
    split; [|now left].
    exists []. split; [now rewrite save_cache_sent|constructor].
  - (* a new tag: the record is notified *)
    assert (dict_truthy r = true) as -> by (unfold dict_truthy; now rewrite Htag).
    rewrite notify_outcome.
    pose proof (format_outcome r) as (Hok & Hraise & _).
    destruct (format_telegram_message r) as [text|e] eqn:E; cbn iota beta zeta.
    + split; [rewrite set_last_release_twice; apply set_last_release_same|].
      split; [|now left].
      exists [Spec.notification self text]. split.
      * simpl. rewrite save_cache_sent. simpl. now rewrite <- app_assoc.
      * constructor; [right; eauto|constructor].
    + split; [rewrite set_last_release_twice; apply set_last_release_same|].
      split; [exists []; split; [now rewrite save_cache_sent|constructor]|].
      right. exists e. split; [reflexivity|]. split.
      * destruct (Hraise e eq_refl) as [Hkey|[-> _]]; [now left|now right].
      * unfold Spec.well_behaved. rewrite Hfeed.
        intros Hcomplete. apply Hok in Hcomplete as [text [=]].
  - (* the tag seen *)
    cbn iota beta zeta.
    split; [apply set_last_release_same|]. split; [|now left].
    exists []. split; [reflexivity|constructor].
Qed.

End loop.

Section loop_runs.

Implicit Types (io : env) (w : world) (self : t).

Lemma monitoring_loop_cons io ios w self :
  monitoring_loop (io :: ios) w self
  = match iteration io w self with
    | (Ok _, self1, w1) => monitoring_loop ios w1 self1
    | raised => raised
    end.
Proof. reflexivity. Qed.

(** The requests a monitor expects do not depend on the identifier it
    holds. *)
Lemma expected_request_last_release self self' r :
  set_last_release (last_release self) self' = self ->
  Spec.expected_request self' r -> Spec.expected_request self r.
Proof. intros <-. exact (fun H => H). Qed.

(** The loop, by induction on the answers of the world. *)
Lemma monitoring_loop_cases ios : forall w self,
  let '(res, self', w') := monitoring_loop ios w self in
  set_last_release (last_release self) self' = self /\
  (exists new,
     sent w' = (sent w ++ new)%list /\ Forall (Spec.expected_request self) new) /\
  (res = Ok tt \/
   exists e,
     res = Raise e /\
     ((Spec.format_error e /\ Exists (fun io => ~ Spec.well_behaved io) ios) \/
      Exists (fun io => pause (clock io) (check_interval self) = Raise e) ios)).
Proof.
  induction ios as [|io ios IH]; intros w self.
  - simpl. split; [apply set_last_release_same|].
    split; [exists []; split; [now rewrite app_nil_r|constructor]|now left].
  - rewrite monitoring_loop_cons.
    pose proof (iteration_cases io w self) as Hturn.
    destruct (iteration io w self) as [[res self1] w1].
    destruct Hturn as (Hself & (posts & Hsent & Hposts) & Hres).
    assert (exists new, sent w1 = (sent w ++ new)%list /\
                        Forall (Spec.expected_request self) new) as Hturn.
    { exists (Spec.poll self :: posts). split; [exact Hsent|].
      constructor; [now left|exact Hposts]. }
    destruct Hres as [->|(e & -> & Herr & Hbad)].
    2:{ split; [exact Hself|]. split; [exact Hturn|].
        right. exists e. split; [reflexivity|]. left.
        split; [exact Herr|now apply Exists_cons_hd]. }
    destruct (pause (clock io) (check_interval self)) as [[]|e] eqn:Epause.
    2:{ split; [exact Hself|]. split; [exact Hturn|].
        right. exists e. split; [reflexivity|]. right. now apply Exists_cons_hd. }
    specialize (IH w1 self1).
    assert (check_interval self1 = check_interval self) as Hinterval
      by (rewrite <- Hself; reflexivity).
    rewrite Hinterval in IH.
    destruct (monitoring_loop ios w1 self1) as [[res' self'] w'].
    destruct IH as (Hself' & (new & Hsent' & Hnew) & Hres).
    split; [rewrite <- Hself at 2; rewrite <- Hself'; reflexivity|].
    split.
    + exists (Spec.poll self :: posts ++ new)%list. split.
      * rewrite Hsent', Hsent. now rewrite <- app_assoc.
      * constructor; [now left|]. apply Forall_app. split; [exact Hposts|].
        eapply Forall_impl; [exact Hnew|].
        intros r. now apply expected_request_last_release.
    + destruct Hres as [->|(e & -> & [[Herr Hbad]|Hpause])]; [now left| |];
        right; exists e; (split; [reflexivity|]).
      * left. split; [exact Herr|now apply Exists_cons_tl].
      * right. now apply Exists_cons_tl.
Qed.

End loop_runs.



(** A check interval of [-1]: the first turn polls, then [time.sleep]
    raises [ValueError]. *)
Example monitoring_loop_negative_interval :
  let self := __init__ Sample.notifier (-1) (Sample.world_with (Some "10.1.3")) in
  let '(res, _, w') :=
    monitoring_loop [Env (GetJson (Sample.release "10.1.3" "")) WriteOk PostOk;
                     Env (GetJson (Sample.release "10.1.4" "")) WriteOk PostOk]
      Sample.empty_world self in
  res = Raise ValueError /\ sent w' = [Spec.poll self].
Proof. vm_compute. split; reflexivity. Qed.

(** X11: an exception that ends the loop is a [KeyError] for [tag_name],
    [name], [html_url] or [body] or a [TypeError], and then some poll was
    answered by a record that is not complete; or it is the [ValueError]
    or [OverflowError] of a check interval that is no length [time.sleep]
    accepts; or it is the exception with which the date of the next check
    or the system's sleep failed at some turn. *)
Theorem monitoring_loop_raises ios w self e :
  (monitoring_loop ios w self).1.1 = Raise e ->
  (Spec.format_error e /\ Exists (fun io => ~ Spec.well_behaved io) ios) \/
  (~ (0 <= check_interval self <= 9223372036) /\
   (e = ValueError \/ e = OverflowError)) \/
  Exists (fun io => clock io = DateRaises e \/ clock io = SleepRaises e) ios.
Proof.
  pose proof (monitoring_loop_cases ios w self) as H.
  destruct (monitoring_loop ios w self) as [[res self'] w']. simpl.
  destruct H as (_ & _ & [->|(e' & -> & H)]); [discriminate|].
  intros [= <-]. destruct H as [H|Hpause]; [now left|]. right.
  apply Exists_exists in Hpause as (io & Hin & Hio).
  apply pause_raises in Hio as [Hio|Hio]; [now left|].
  right. apply Exists_exists. eauto.
Qed.

Lemma monitoring_loop_raises_witness :
  let unnamed :=
    {| tag_name := Some "10.1.4"; name := None; html_url := Some "https://x";
       body := Some ""; assets := None |} in
  let no_notes :=
    {| tag_name := Some "10.1.4"; name := Some "Cardano Node 10.1.4";
       html_url := Some "https://x"; body := Some Null; assets := None |} in
  let self := Sample.monitor (Some "10.1.3") in
  (Spec.format_error (KeyError "name") /\
   Exists (fun io => ~ Spec.well_behaved io) [Env (GetJson unnamed) WriteOk PostOk]) /\
  (Spec.format_error TypeError /\
   Exists (fun io => ~ Spec.well_behaved io) [Env (GetJson no_notes) WriteOk PostOk]) /\
  Exists (fun io => clock io = DateRaises OSError \/ clock io = SleepRaises OSError)
    [Answers (GetRaises "down") WriteOk PostOk (SleepRaises OSError)].
Proof.
  intros unnamed no_notes self. split; [|split].
  - destruct (monitoring_loop_raises [Env (GetJson unnamed) WriteOk PostOk]
                Sample.empty_world self (KeyError "name") eq_refl)
      as [H|[[H _]|H]]; [exact H|exfalso; apply H; vm_compute; split; discriminate|].
    exfalso. apply Exists_cons in H as [[H|H]|H];
      [discriminate H|discriminate H|now apply Exists_nil in H].
  - destruct (monitoring_loop_raises [Env (GetJson no_notes) WriteOk PostOk]
                Sample.empty_world self TypeError eq_refl)
      as [H|[[H _]|H]]; [exact H|exfalso; apply H; vm_compute; split; discriminate|].
    exfalso. apply Exists_cons in H as [[H|H]|H];
      [discriminate H|discriminate H|now apply Exists_nil in H].
  - destruct (monitoring_loop_raises
                [Answers (GetRaises "down") WriteOk PostOk (SleepRaises OSError)]
                Sample.empty_world self OSError eq_refl)
      as [[[(key & H & _)|H] _]|[[H _]|H]];
      [discriminate H|discriminate H
      |exfalso; apply H; vm_compute; split; discriminate|exact H].
Defined.


Section restart.

Implicit Types (io : env) (w : world) (self : t).

(** What is persisted is what is in memory: the invariant of a monitor
    whose writes succeed. *)
Lemma iteration_persisted io w self :
  write io = WriteOk ->
  last_release self = Spec.persisted self w ->
  let '(_, self', w') := iteration io w self in
  last_release self' = Spec.persisted self' w' /\ cache_file self' = cache_file self.
Proof.
  intros Hwrite Hinv. unfold iteration. check_cases io w self.
  - split; [|reflexivity]. rewrite Hinv. now apply persisted_ext.
  - split; [|reflexivity]. rewrite Hinv. now apply persisted_ext.
  - rewrite Hwrite. split; [|reflexivity]. now rewrite persisted_save_cache.
  - rewrite Hwrite.
    assert (dict_truthy r = true) as -> by (unfold dict_truthy; now rewrite Htag).
    set (self1 := set_last_release (Some tag) self).
    set (w1 := _save_cache WriteOk (issue (Spec.poll self) w) self1).
    pose proof (notify_files (post io) w1 self1 r) as Hfiles.
    destruct (notify (post io) w1 self1 r) as [res w2].
    destruct res; (split; [|reflexivity]);
      rewrite (persisted_ext self1 self1 w1 w2 eq_refl Hfiles);
      unfold w1; now rewrite persisted_save_cache.
  - split; [|reflexivity]. rewrite Hinv. now apply persisted_ext.
Qed.

Lemma monitoring_loop_persisted ios : forall w self,
  Forall (fun io => write io = WriteOk) ios ->
  last_release self = Spec.persisted self w ->
  let '(_, self', w') := monitoring_loop ios w self in
  last_release self' = Spec.persisted self' w' /\ cache_file self' = cache_file self.
Proof.
  induction ios as [|io ios IH]; intros w self Hwrites Hinv.
  - simpl. auto.
  - inversion Hwrites as [|? ? Hwrite Hrest]; subst.
    rewrite monitoring_loop_cons.
    pose proof (iteration_persisted io w self Hwrite Hinv) as Hturn.
    destruct (iteration io w self) as [[res self1] w1].
    destruct Hturn as [Hinv1 Hpath1].
    destruct res as [[]|e]; [|auto].
    specialize (IH w1 self1 Hrest Hinv1).
    destruct (monitoring_loop ios w1 self1) as [[res' self'] w'].
    destruct IH as [Hinv' Hpath']. split; [exact Hinv'|congruence].
Qed.

(** A monitor just constructed holds what is persisted. *)
Lemma init_persisted notifier interval w :
  last_release (__init__ notifier interval w)
  = Spec.persisted (__init__ notifier interval w) w.
Proof.
  unfold Spec.persisted, __init__.
  set (self0 := {| check_interval := interval; last_release := None |}).
  assert (set_last_release None (_load_cache w self0) = self0) as ->; [|reflexivity].
  unfold _load_cache.
  destruct (exists_ (cache_file self0) w); [|reflexivity].
  destruct (json_load (cache_file self0) w) as [[members|]|e]; reflexivity.
Qed.

(** What a newly constructed monitor loads is what is persisted at the
    fixed path. *)
Lemma init_loads_persisted notifier interval w self :
  cache_file self = "cardano_node_last_release.json" ->
  last_release (__init__ notifier interval w) = Spec.persisted self w.
Proof.
  intros Hpath. unfold __init__, Spec.persisted, _load_cache, exists_, json_load.
  simpl cache_file. rewrite Hpath.
  destruct (files w !! "cardano_node_last_release.json") as [[|[members|]]|];
    reflexivity.
Qed.

End restart.

(** X13: when the writes of the cache file succeed, a restart resumes
    where the monitor stopped: after any number of turns of the loop,
    ended by an exception or not, a monitor constructed in the world the
    loop left holds the identifier the running monitor held, so it does not
    notify again for the release seen last. *)
Theorem restart_resumes notifier interval startup ios w :
  Forall (fun io => write io = WriteOk) ios ->
  let '(_, self', w') :=
    start_monitoring startup ios w (__init__ notifier interval w) in
  forall notifier' interval',
    last_release (__init__ notifier' interval' w') = last_release self'.
Proof.
  intros Hwrites. unfold start_monitoring. rewrite send_message_spec.
  set (self := __init__ notifier interval w).
  match goal with
  | |- context [monitoring_loop ios ?w1 self] =>
      pose proof (monitoring_loop_persisted ios w1 self Hwrites) as H;
      destruct (monitoring_loop ios w1 self) as [[res self'] w']
  end.
  destruct H as [Hinv Hpath].
  { unfold self. rewrite init_persisted. now apply persisted_ext. }
  intros notifier' interval'. rewrite Hinv. apply init_loads_persisted.
  rewrite Hpath. apply init_cache_file.
Qed.

Lemma restart_resumes_witness :
  let ios :=
    [Env (GetJson (Sample.release "10.1.4" "")) WriteOk (PostRaises "timed out");
     Env (GetRaises "503") WriteOk PostOk;
     Env (GetJson (Sample.release "10.2.0" "")) WriteOk PostOk] in
  let '(_, self', w') :=
    start_monitoring PostOk ios (Sample.world_with (Some "10.1.3"))
      (__init__ Sample.notifier 3600 (Sample.world_with (Some "10.1.3"))) in
  last_release self' = Some "10.2.0" /\
  last_release (__init__ Sample.notifier 3600 w') = Some "10.2.0".
Proof.
  intros ios.
  pose proof (restart_resumes Sample.notifier 3600 PostOk ios
                (Sample.world_with (Some "10.1.3"))) as H.
  destruct (start_monitoring PostOk ios _ _) as [[res self'] w'] eqn:E.
  assert (last_release self' = Some "10.2.0") as Hlast.
  { vm_compute in E. now injection E as _ <- _. }
  split; [exact Hlast|]. rewrite <- Hlast. apply H.
  repeat constructor.
Defined.

Lemma check_new_release_frame_witness :
  let io := Env (GetJson (Sample.release "10.1.4" "")) WriteOk PostOk in
  let w := Sample.world_with (Some "10.1.3") in
  let self := Sample.monitor (Some "10.1.3") in
  let '(_, self', w') := check_new_release io w self in
  files w' !! "notes.txt" = files w !! "notes.txt" /\
  (last_release self' = last_release self -> files w' = files w).
Proof.
  intros io w self.
  pose proof (check_new_release_frame io w self) as H.
  destruct (check_new_release io w self) as [[out self'] w'].
  destruct H as (_ & Hother & Hsame & _).
  split; [|exact Hsame]. apply Hother.
  intros Heq. vm_compute in Heq. discriminate Heq.
Defined.
